(** * mod-utils: value predicates and the [match] dispatcher

    A shallow embedding of [src/Conditionals/main.ts] (the predicate layer),
    [src/guards/special.ts] (the built-in container guards) and
    [src/Match/main.ts] (the dispatcher), followed by the properties the
    specification states about them.

    The code is JavaScript at run time, so it is embedded in a small monad
    of effects: a computation may return a value, throw, and run caller code
    (a predicate, an evaluation, a constructor), whose effect on the caller's
    own state is threaded through as an opaque [World]. *)

From Stdlib Require Import List String Ascii Bool Arith ZArith QArith Lia.
From Stdlib Require Import Permutation.
From Stdlib Require DecimalString.
Import ListNotations.

Close Scope Q_scope.
Local Open Scope string_scope.
Local Open Scope list_scope.

(** ** Numbers

    A JavaScript number is NaN, an infinity or a finite value; the finite
    doubles are rationals.  The code does no arithmetic, it only classifies
    and compares numbers, so rounding never arises.  [-0] and [+0] are one
    value here: [===], [>], [>=], [Number.isInteger] and [Number.isNaN], the
    only operations the code applies to numbers, do not tell them apart. *)

Inductive number : Type :=
| NaN
| Infinity (negative : bool)
| Finite (q : Q).

Definition is_nan (n : number) : bool :=
  match n with NaN => true | _ => false end.

(** [x === y] on numbers: NaN equals nothing. *)
Definition num_eqb (x y : number) : bool :=
  match x, y with
  | Finite p, Finite q => Qeq_bool p q
  | Infinity s, Infinity t => Bool.eqb s t
  | _, _ => false
  end.

(** [x < y] on numbers. *)
Definition num_ltb (x y : number) : bool :=
  match x, y with
  | Finite p, Finite q => negb (Qle_bool q p)
  | Infinity s, Infinity t => s && negb t
  | Infinity s, Finite _ => s
  | Finite _, Infinity t => negb t
  | _, _ => false
  end.

(** [x <= y] on numbers. *)
Definition num_leb (x y : number) : bool :=
  match x, y with
  | Finite p, Finite q => Qle_bool p q
  | Infinity s, Infinity t => s || negb t
  | Infinity s, Finite _ => s
  | Finite _, Infinity t => negb t
  | _, _ => false
  end.

(** [Number.isInteger] on numbers. *)
Definition is_integer (n : number) : bool :=
  match n with
  | Finite q => (Qnum q mod Zpos (Qden q) =? 0)%Z
  | _ => false
  end.

Definition int (z : Z) : number := Finite (inject_Z z).

(** ** Values *)

(** A property key is a string or a symbol. *)
Inductive propkey : Type :=
| PStr (s : string)
| PSym (id : nat).

Definition propkey_eqb (j k : propkey) : bool :=
  match j, k with
  | PStr s, PStr t => String.eqb s t
  | PSym a, PSym b => Nat.eqb a b
  | _, _ => false
  end.

(** A data property of an object. *)
Record property (V : Type) : Type := Property {
  pkey : propkey;
  pvalue : V;
  penumerable : bool
}.
Arguments Property {V} _ _ _.
Arguments pkey {V} _.
Arguments pvalue {V} _.
Arguments penumerable {V} _.

(** The built-in constructors [special.ts] tests with [instanceof]. *)
Inductive builtin : Type := BMap | BSet | BWeakMap | BWeakSet | BDate.

Definition builtin_eqb (a b : builtin) : bool :=
  match a, b with
  | BMap, BMap | BSet, BSet | BWeakMap, BWeakMap
  | BWeakSet, BWeakSet | BDate, BDate => true
  | _, _ => false
  end.

(** Run-time values.  Symbols and functions are known by an identifier;
    arrays and objects carry the reference [===] compares.

    An array is its dense list of items.  An object is its own data
    properties, in the order of its own keys ([Reflect.ownKeys]), the
    properties it inherits through its prototype chain (flattened), and the
    built-in constructors whose prototype lies on that chain.  Objects are
    ordinary: proxies, accessor properties and array holes are outside the
    model.  A string is its sequence of characters, and its [length] their
    number. *)
#[local] Set Warnings "-register-all".
Inductive value : Type :=
| VUndefined
| VNull
| VBool (b : bool)
| VNum (n : number)
| VStr (s : string)
| VSym (id : nat)
| VFun (f : nat)
| VArr (ref : nat) (items : list value)
| VObj (ref : nat) (own inherited : list (property value))
       (classes : list builtin).

Definition num (z : Z) : value := VNum (int z).

(** [a === b]. *)
Definition strict_eq (a b : value) : bool :=
  match a, b with
  | VUndefined, VUndefined => true
  | VNull, VNull => true
  | VBool x, VBool y => Bool.eqb x y
  | VNum x, VNum y => num_eqb x y
  | VStr x, VStr y => String.eqb x y
  | VSym x, VSym y => Nat.eqb x y
  | VFun x, VFun y => Nat.eqb x y
  | VArr x _, VArr y _ => Nat.eqb x y
  | VObj x _ _ _, VObj y _ _ _ => Nat.eqb x y
  | _, _ => false
  end.

(** [typeof v]. *)
Definition typeof (v : value) : value :=
  VStr match v with
       | VUndefined => "undefined"
       | VNull => "object"
       | VBool _ => "boolean"
       | VNum _ => "number"
       | VStr _ => "string"
       | VSym _ => "symbol"
       | VFun _ => "function"
       | VArr _ _ => "object"
       | VObj _ _ _ _ => "object"
       end.

(** ToBoolean, the test of [&&], [||], [!], [?:], [if], [filter] and
    [find]. *)
Definition truthy (v : value) : bool :=
  match v with
  | VUndefined | VNull => false
  | VBool b => b
  | VNum NaN => false
  | VNum (Infinity _) => true
  | VNum (Finite q) => negb (Qeq_bool q 0%Q)
  | VStr s => negb (String.eqb s "")
  | _ => true
  end.

Definition Array_isArray (v : value) : bool :=
  match v with VArr _ _ => true | _ => false end.

Definition Number_isNaN (v : value) : bool :=
  match v with VNum n => is_nan n | _ => false end.

Definition Number_isInteger (v : value) : bool :=
  match v with VNum n => is_integer n | _ => false end.

(** [v instanceof C] for a built-in constructor [C]. *)
Definition instanceof (v : value) (c : builtin) : bool :=
  match v with
  | VObj _ _ _ classes => existsb (builtin_eqb c) classes
  | _ => false
  end.

Definition key_value (k : propkey) : value :=
  match k with PStr s => VStr s | PSym id => VSym id end.

Definition is_string_key (k : propkey) : bool :=
  match k with PStr _ => true | PSym _ => false end.

Definition is_symbol_key (k : propkey) : bool :=
  match k with PSym _ => true | PStr _ => false end.

Definition lookup (k : propkey) (ps : list (property value)) : option value :=
  option_map pvalue (find (fun p => propkey_eqb (pkey p) k) ps).

Definition has_key (k : propkey) (ps : list (property value)) : bool :=
  existsb (fun p => propkey_eqb (pkey p) k) ps.

(** ** Exceptions and outcomes *)

Inductive error_kind : Type := PlainError | TypeError | ReferenceError.

(** What a [throw] carries: an error object of a given constructor and
    message, or any other value. *)
Inductive exn : Type :=
| JsError (kind : error_kind) (message : string)
| Thrown (v : value).

Inductive outcome (A : Type) : Type :=
| Ok (a : A)
| Throw (e : exn).
Arguments Ok {A} _.
Arguments Throw {A} _.

(** ** The host

    What the code asks of its environment: running a caller's function or
    constructor, converting an object used as a property key, and any
    operation on operands of a kind that no path of this code reaches
    (left to the host rather than guessed). *)

Inductive request : Type :=
| Call (f : nat) (this : value) (args : list value)
| Construct (f : nat) (args : list value)
| ToPrimitive (o : value)
| Other (operation : string) (operands : list value).

Record Host : Type := {
  World : Type;
  perform : request -> World -> outcome value * World;
  number_to_string : number -> string
}.

(** ** The monad of effects *)

Section Effects.

Variable h : Host.

Definition M (A : Type) : Type := World h -> outcome A * World h.

Definition ret {A : Type} (a : A) : M A := fun w => (Ok a, w).

Definition throw {A : Type} (e : exn) : M A := fun w => (Throw e, w).

Definition bind {A B : Type} (m : M A) (k : A -> M B) : M B :=
  fun w =>
    match m w with
    | (Ok a, w') => k a w'
    | (Throw e, w') => (Throw e, w')
    end.

(** [try { m } catch (err) { handler err }]. *)
Definition try_catch {A : Type} (m : M A) (handler : exn -> M A) : M A :=
  fun w =>
    match m w with
    | (Ok a, w') => (Ok a, w')
    | (Throw e, w') => handler e w'
    end.

Definition ask (r : request) : M value := perform h r.

End Effects.

Arguments ret {h A} _ _.
Arguments throw {h A} _ _.
Arguments bind {h A B} _ _ _.
Arguments try_catch {h A} _ _ _.

Notation "x <- m ;; k" := (bind m (fun x => k))
  (at level 61, m at next level, right associativity).
Notation "m ;;; k" := (bind m (fun _ => k))
  (at level 61, right associativity).

(** ** Operators and built-in operations *)

Section Operators.

Variable h : Host.
#[local] Abbreviation M := (M h).

(** [a && b]: [b] is evaluated only when [a] is truthy. *)
Definition and_ (a b : M value) : M value :=
  x <- a ;; if truthy x then b else ret x.

(** [a || b]: [b] is evaluated only when [a] is falsy. *)
Definition or_ (a b : M value) : M value :=
  x <- a ;; if truthy x then ret x else b.

(** [!a]. *)
Definition not_ (a : M value) : M value :=
  x <- a ;; ret (VBool (negb (truthy x))).

(** [a === b] of two evaluated operands. *)
Definition seq_ (a b : value) : M value := ret (VBool (strict_eq a b)).

(** [a > b]. *)
Definition gt (a b : value) : M value :=
  match a, b with
  | VNum x, VNum y => ret (VBool (num_ltb y x))
  | _, _ => ask h (Other ">" [a; b])
  end.

(** [a >= b]. *)
Definition ge (a b : value) : M value :=
  match a, b with
  | VNum x, VNum y => ret (VBool (num_leb y x))
  | _, _ => ask h (Other ">=" [a; b])
  end.

Definition length_value {A : Type} (l : list A) : value :=
  num (Z.of_nat (List.length l)).

(** [o[k]] for a property key [k]: reading a property of [undefined] or
    [null] throws; an object answers from its own properties, then from the
    inherited ones; strings and arrays have their [length]. *)
Definition get (o : value) (k : propkey) : M value :=
  match o with
  | VUndefined | VNull =>
      throw (JsError TypeError "Cannot read properties of undefined or null")
  | VObj _ own inherited _ =>
      match lookup k own with
      | Some v => ret v
      | None =>
          match lookup k inherited with
          | Some v => ret v
          | None => ret VUndefined
          end
      end
  | VStr s =>
      if propkey_eqb k (PStr "length")
      then ret (num (Z.of_nat (String.length s)))
      else ask h (Other "get" [o; key_value k])
  | VArr _ items =>
      if propkey_eqb k (PStr "length")
      then ret (length_value items)
      else ask h (Other "get" [o; key_value k])
  | _ => ask h (Other "get" [o; key_value k])
  end.

(** The property key a primitive value converts to. *)
Definition key_of_primitive (v : value) : option propkey :=
  match v with
  | VStr s => Some (PStr s)
  | VSym id => Some (PSym id)
  | VNum n => Some (PStr (number_to_string h n))
  | VBool true => Some (PStr "true")
  | VBool false => Some (PStr "false")
  | VUndefined => Some (PStr "undefined")
  | VNull => Some (PStr "null")
  | _ => None
  end.

(** ToPropertyKey: an object is first converted to a primitive, which runs
    its own [toString] / [valueOf]. *)
Definition to_property_key (v : value) : M propkey :=
  match key_of_primitive v with
  | Some k => ret k
  | None =>
      p <- ask h (ToPrimitive v) ;;
      match key_of_primitive p with
      | Some k => ret k
      | None =>
          throw (JsError TypeError "Cannot convert object to primitive value")
      end
  end.

(** [o[key]] for a key that is a value. *)
Definition member (o key : value) : M value :=
  match o with
  | VUndefined | VNull =>
      throw (JsError TypeError "Cannot read properties of undefined or null")
  | _ => k <- to_property_key key ;; get o k
  end.

(** [key in o]. *)
Definition in_ (key o : value) : M value :=
  match o with
  | VObj _ own inherited _ =>
      k <- to_property_key key ;;
      ret (VBool (has_key k own || has_key k inherited))
  | VArr _ _ | VFun _ =>
      k <- to_property_key key ;; ask h (Other "in" [key_value k; o])
  | _ =>
      throw (JsError TypeError "Cannot use 'in' operator in a non-object")
  end.

(** [f(...args)], called as a plain function ([this] is [undefined]). *)
Definition call_ (f : value) (args : list value) : M value :=
  match f with
  | VFun g => ask h (Call g VUndefined args)
  | _ => throw (JsError TypeError "is not a function")
  end.

(** [new f(...args)]. *)
Definition new_ (f : value) (args : list value) : M value :=
  match f with
  | VFun g => ask h (Construct g args)
  | _ => throw (JsError TypeError "is not a constructor")
  end.

(** [err.message] for the value a [catch] receives. *)
Definition message_of (err : exn) : M value :=
  match err with
  | JsError _ message => ret (VStr message)
  | Thrown v => get v (PStr "message")
  end.

Definition index_value (i : option nat) : value :=
  match i with
  | Some n => num (Z.of_nat n)
  | None => num (-1)
  end.

Fixpoint index_where {A : Type} (p : A -> bool) (l : list A) (i : nat)
  : option nat :=
  match l with
  | [] => None
  | x :: rest => if p x then Some i else index_where p rest (S i)
  end.

(** [m.indexOf(x)] for a string [x]: the string and the array method are
    built in, any other receiver answers with its own [indexOf]. *)
Definition indexOf (m : value) (x : string) : M value :=
  match m with
  | VUndefined | VNull =>
      throw (JsError TypeError "Cannot read properties of undefined or null")
  | VStr s => ret (index_value (String.index 0 x s))
  | VArr _ items =>
      ret (index_value (index_where (strict_eq (VStr x)) items 0))
  | _ =>
      f <- get m (PStr "indexOf") ;;
      match f with
      | VFun g => ask h (Call g m [VStr x])
      | _ => throw (JsError TypeError "indexOf is not a function")
      end
  end.

(** [Array.prototype.filter] with a callback: kept in order, the callback's
    result tested for truthiness. *)
Fixpoint filter_ {A : Type} (cb : A -> M value) (l : list A) : M (list A) :=
  match l with
  | [] => ret []
  | x :: rest =>
      keep <- cb x ;;
      kept <- filter_ cb rest ;;
      ret (if truthy keep then x :: kept else kept)
  end.

(** [Array.prototype.map] with a callback. *)
Fixpoint map_ {A B : Type} (cb : A -> M B) (l : list A) : M (list B) :=
  match l with
  | [] => ret []
  | x :: rest => y <- cb x ;; ys <- map_ cb rest ;; ret (y :: ys)
  end.

(** [Array.prototype.find] with a callback: the first element, in index
    order, for which the callback's result is truthy; [None] stands for the
    [undefined] it returns when there is none. *)
Fixpoint find_ {A : Type} (cb : A -> M value) (l : list A) : M (option A) :=
  match l with
  | [] => ret None
  | x :: rest =>
      hit <- cb x ;; if truthy hit then ret (Some x) else find_ cb rest
  end.

(** The own keys of an object, as the values the [Object.*] functions
    return. *)
Definition own_keys (select : property value -> bool) (o : value)
  : M (list value) :=
  match o with
  | VObj _ own _ _ => ret (map (fun p => key_value (pkey p)) (filter select own))
  | VUndefined | VNull =>
      throw (JsError TypeError "Cannot convert undefined or null to object")
  | _ =>
      r <- ask h (Other "ownKeys" [o]) ;;
      ret match r with VArr _ items => items | _ => [] end
  end.

(** [Object.keys]: the own enumerable string keys. *)
Definition Object_keys : value -> M (list value) :=
  own_keys (fun p => is_string_key (pkey p) && penumerable p).

(** [Object.getOwnPropertyNames]: the own string keys. *)
Definition Object_getOwnPropertyNames : value -> M (list value) :=
  own_keys (fun p => is_string_key (pkey p)).

(** [Object.getOwnPropertySymbols]: the own symbol keys. *)
Definition Object_getOwnPropertySymbols : value -> M (list value) :=
  own_keys (fun p => is_symbol_key (pkey p)).

(** The items of an array, as [filter] and an array pattern [[a, b]]
    traverse them. *)
Definition array_items (v : value) : M (list value) :=
  match v with
  | VArr _ items => ret items
  | _ =>
      r <- ask h (Other "iterate" [v]) ;;
      ret match r with VArr _ items => items | _ => [] end
  end.

End Operators.

(** ** The predicate layer: [Conditionals/main.ts] *)

Section Conditionals.

Variable h : Host.
#[local] Abbreviation M := (M h).

Definition isNull (val : value) : M value :=
  seq_ h val VNull.

Definition isUndefined (val : value) : M value :=
  seq_ h (typeof val) (VStr "undefined").

Definition isMissing (val : value) : M value :=
  or_ h (isNull val) (isUndefined val).

Definition isPresent (val : value) : M value :=
  not_ h (isMissing val).

Definition isBoolean (val : value) : M value :=
  and_ h (isPresent val) (seq_ h (typeof val) (VStr "boolean")).

Definition isArray (val : value) : M value :=
  and_ h (isPresent val) (ret (VBool (Array_isArray val))).

Definition isObject (val : value) : M value :=
  and_ h (and_ h (isPresent val) (seq_ h (typeof val) (VStr "object")))
         (not_ h (isArray val)).

Definition isString (val : value) : M value :=
  and_ h (isPresent val) (seq_ h (typeof val) (VStr "string")).

Definition isNumber (val : value) : M value :=
  and_ h (and_ h (isPresent val) (seq_ h (typeof val) (VStr "number")))
         (not_ h (ret (VBool (Number_isNaN val)))).

Definition isFunction (val : value) : M value :=
  and_ h (isPresent val) (seq_ h (typeof val) (VStr "function")).

Definition isNonEmptyString (val : value) : M value :=
  and_ h (isString val)
         (len <- get h val (PStr "length") ;; gt h len (num 0)).

Definition isNonEmptyArray (val : value) : M value :=
  and_ h (isArray val)
         (len <- get h val (PStr "length") ;; gt h len (num 0)).

Definition isTrue (val : value) : M value :=
  and_ h (isBoolean val) (seq_ h val (VBool true)).

Definition isPositiveInteger (val : value) : M value :=
  and_ h (and_ h (isNumber val) (ret (VBool (Number_isInteger val))))
         (gt h val (num 0)).

Definition isNonNegativeInteger (val : value) : M value :=
  and_ h (and_ h (isNumber val) (ret (VBool (Number_isInteger val))))
         (ge h val (num 0)).

Definition hasOneItem (val : value) : M value :=
  and_ h (isArray val)
         (len <- get h val (PStr "length") ;; seq_ h len (num 1)).

Definition hasMultipleItems (val : value) : M value :=
  and_ h (isArray val)
         (len <- get h val (PStr "length") ;; gt h len (num 1)).

Definition isEqual (val1 val2 : value) : M value :=
  seq_ h val1 val2.

(** [new val()] is attempted; what it throws reaches the [catch], whose
    own reads of [err.message] and call of [indexOf] are not guarded. *)
Definition isConstructable (val : value) : M value :=
  result <- isFunction val ;;
  if truthy result then
    try_catch
      (new_ h val [] ;;; ret (VBool true))
      (fun err =>
         message <- message_of h err ;;
         index <- indexOf h message "is not a constructor" ;;
         not_ h (isNonNegativeInteger index))
  else ret result.

Definition hasOnlyKeys (val keys : value) : M value :=
  guard <- and_ h (isObject val) (isArray keys) ;;
  if truthy guard then
    objKeys <- Object_keys h val ;;
    items <- array_items h keys ;;
    propertiesInKeys <- filter_ h (fun key => in_ h key val) items ;;
    and_ h (isEqual (length_value propertiesInKeys) (length_value objKeys))
           (isEqual (length_value objKeys) (length_value items))
  else ret (VBool false).

End Conditionals.

(** ** The built-in container guards: [guards/special.ts] *)

Module Special.
Section Guards.

Variable h : Host.
#[local] Abbreviation M := (M h).

Definition isNull (term : value) : M value :=
  seq_ h term VNull.

Definition isFunction (term : value) : M value :=
  seq_ h (typeof term) (VStr "function").

Definition isObject (term : value) : M value :=
  and_ h (and_ h (not_ h (isNull term)) (seq_ h (typeof term) (VStr "object")))
         (not_ h (ret (VBool (Array_isArray term)))).

Definition isArray (term : value) : M value :=
  ret (VBool (Array_isArray term)).

Definition isMap (term : value) : M value :=
  ret (VBool (instanceof term BMap)).

Definition isSet (term : value) : M value :=
  ret (VBool (instanceof term BSet)).

Definition isWeakMap (term : value) : M value :=
  ret (VBool (instanceof term BWeakMap)).

Definition isWeakSet (term : value) : M value :=
  ret (VBool (instanceof term BWeakSet)).

Definition isDate (term : value) : M value :=
  ret (VBool (instanceof term BDate)).

End Guards.
End Special.

(** ** The validation helpers: [ThrowIf/main.ts] *)

Section ThrowIf.

Variable h : Host.
#[local] Abbreviation M := (M h).

(** Modelled from the spec: the error kind [throwIfEmptyArray] raises when
    the caller names none.  [ThrowIf/main.ts] is missing; the specification
    groups the empty-matcher error with the invalid-shape error, a
    [TypeError], as the generic type/value kind. *)
Definition defaultErrorType : error_kind := TypeError.

(** Modelled from the spec: [throwIfEmptyArray] of the missing
    [ThrowIf/main.ts], "a validation helper that fails fast when a given
    list is empty". *)
Definition throwIfEmptyArray {A : Type} (val : list A) (message : string)
  : M unit :=
  match val with
  | [] => throw (JsError defaultErrorType message)
  | _ :: _ => ret tt
  end.

(** Modelled from the spec: [throwIfMissing] of the missing
    [ThrowIf/main.ts], the helper "that fails fast when a given value is
    absent", raising the error kind it is given. *)
Definition throwIfMissing (val : value) (message : string)
  (ErrorType : error_kind) : M unit :=
  missing <- isMissing h val ;;
  if truthy missing then throw (JsError ErrorType message) else ret tt.

End ThrowIf.

(** ** The dispatcher: [Match/main.ts] *)

(** [MatchArm] of [types.ts], as [normalizeBasicMatcher] and
    [normalizeAdvancedMatcher] build it. *)
Record MatchArm : Type := {
  matchExpression : value;
  evaluation : value
}.

(** [const _def = Symbol("_def")]: the one symbol of the module. *)
Definition _def : value := VSym 0.

(** The arm as the object literal [{ matchExpression, evaluation }]; it
    never leaves [match], so its reference is never compared. *)
Definition armObject (arm : MatchArm) : value :=
  VObj 0 [Property (PStr "matchExpression") (matchExpression arm) true;
          Property (PStr "evaluation") (evaluation arm) true] [] [].

(** What [find] returned, as a value: the arm or [undefined]. *)
Definition found (arm : option MatchArm) : value :=
  match arm with
  | Some a => armObject a
  | None => VUndefined
  end.

Section Match.

Variable h : Host.
#[local] Abbreviation M := (M h).

(** The object literal [{}] of the default parameter; only its own keys
    are read. *)
Definition emptyObject : value := VObj 0 [] [] [].

Definition normalizeBasicMatcher (arms : value) : M (list MatchArm) :=
  let arms := match arms with VUndefined => emptyObject | _ => arms end in
  ownPropSymbols <- Object_getOwnPropertySymbols h arms ;;
  ownPropNames <- Object_getOwnPropertyNames h arms ;;
  map_ h (fun key =>
            value_at_key <- member h arms key ;;
            ret {| matchExpression := key; evaluation := value_at_key |})
       (ownPropSymbols ++ ownPropNames).

(** The array pattern of the [map] callback: the first two items, each
    [undefined] when the entry is shorter. *)
Definition armOfEntry (entry : value) : M MatchArm :=
  items <- array_items h entry ;;
  ret {| matchExpression := nth 0 items VUndefined;
         evaluation := nth 1 items VUndefined |}.

(** The parameter is the array literal [[matcher, ...potentialRestOfMatcher]]
    of its one call, given by its items. *)
Definition normalizeAdvancedMatcher (arms : list value) : M (list MatchArm) :=
  entries <- filter_ h (isNonEmptyArray h) arms ;;
  map_ h armOfEntry entries.

(** Lines 53-59: the shape check and the normalisation of the call's
    arguments. *)
Definition normalizedArms (args : list value) : M (list MatchArm) :=
  let matcher := nth 0 args VUndefined in
  let potentialRestOfMatcher := tl args in
  shape <- or_ h (isObject h matcher) (isArray h matcher) ;;
  if negb (truthy shape) then
    throw (JsError TypeError
             "`matcher` has to be either an Object or an Array")
  else
    basic <- isObject h matcher ;;
    if truthy basic
    then normalizeBasicMatcher matcher
    else normalizeAdvancedMatcher (matcher :: potentialRestOfMatcher).

(** Lines 61-69: the two validations; the result is [defaultArm]. *)
Definition defaultArm (arms : list MatchArm) : M (option MatchArm) :=
  throwIfEmptyArray h arms "`matcher` has to contain at least one arm" ;;;
  default <- find_ h (fun arm => seq_ h (matchExpression arm) _def) arms ;;
  throwIfMissing h (found default)
    "`matcher` needs to contain a default `_def` arm" ReferenceError ;;;
  ret default.

(** Lines 71-79: the callback of the second [find]. *)
Definition armMatches (val : value) (arm : MatchArm) : M value :=
  if strict_eq (matchExpression arm) _def then ret (VBool false)
  else
    callable <- isFunction h (matchExpression arm) ;;
    if truthy callable
    then result <- call_ h (matchExpression arm) [val] ;; isTrue h result
    else isEqual h (matchExpression arm) val.

Definition explicitMatch (val : value) (arms : list MatchArm)
  : M (option MatchArm) :=
  find_ h (armMatches val) arms.

(** [(arm as MatchArm).evaluation]. *)
Definition evaluationOf (arm : option MatchArm) : M value :=
  match arm with
  | Some a => ret (evaluation a)
  | None =>
      throw (JsError TypeError "Cannot read properties of undefined or null")
  end.

(** Lines 81-85: the evaluation of the explicit match when there is one,
    of the default arm otherwise. *)
Definition selectedEvaluation (explicit default : option MatchArm)
  : M value :=
  present <- isPresent h (found explicit) ;;
  if truthy present
  then evaluationOf explicit
  else evaluationOf default.

(** Line 87. *)
Definition result (val evaluation : value) : M value :=
  callable <- isFunction h evaluation ;;
  if truthy callable then call_ h evaluation [val] else ret evaluation.

(** [match(val)(...args)]. *)
Definition match_ (val : value) (args : list value) : M value :=
  arms <- normalizedArms args ;;
  default <- defaultArm arms ;;
  explicit <- explicitMatch val arms ;;
  evaluation <- selectedEvaluation explicit default ;;
  result val evaluation.

End Match.

(** ** Definitions the properties are stated with *)

Definition missing (v : value) : bool :=
  match v with VUndefined | VNull => true | _ => false end.

Definition callable (v : value) : bool :=
  match v with VFun _ => true | _ => false end.

Definition isTrueValue (v : value) : bool :=
  match v with VBool true => true | _ => false end.

Definition positiveInteger (v : value) : bool :=
  match v with VNum n => is_integer n && num_ltb (int 0) n | _ => false end.

Definition nonEmptyArray (v : value) : bool :=
  match v with VArr _ (_ :: _) => true | _ => false end.

(** Values that convert to a property key without running caller code. *)
Definition primitive (v : value) : bool :=
  match v with VFun _ | VArr _ _ | VObj _ _ _ _ => false | _ => true end.

Definition primitiveKeys (keys : value) : bool :=
  match keys with VArr _ items => forallb primitive items | _ => true end.

(** Whether an error message names the value as not being a constructor. *)
Definition mentions (message : string) : bool :=
  match String.index 0 "is not a constructor" message with
  | Some _ => true
  | None => false
  end.

(** An arm that carries the default sentinel. *)
Definition isDefault (arm : MatchArm) : bool :=
  strict_eq (matchExpression arm) _def.

Section Statements.

Variable h : Host.

(** A predicate that answers every input with a boolean, throws on none
    and leaves the world as it found it. *)
Definition returns_boolean_purely (p : value -> M h value) : Prop :=
  forall v w, exists b, p v w = (Ok (VBool b), w).

(** The one-argument predicates of [Conditionals/main.ts] other than
    [isConstructable], and those of [guards/special.ts]. *)
Definition predicates : list (value -> M h value) :=
  [isNull h; isUndefined h; isMissing h; isPresent h; isBoolean h;
   isArray h; isObject h; isString h; isNumber h; isFunction h;
   isNonEmptyString h; isNonEmptyArray h; isTrue h; isPositiveInteger h;
   isNonNegativeInteger h; hasOneItem h; hasMultipleItems h;
   Special.isNull h; Special.isFunction h; Special.isObject h;
   Special.isArray h; Special.isMap h; Special.isSet h;
   Special.isWeakMap h; Special.isWeakSet h; Special.isDate h].

(** [key in val] for an object with the given properties and a primitive
    key. *)
Definition hasProperty (own inherited : list (property value)) (key : value)
  : bool :=
  match key_of_primitive h key with
  | Some k => has_key k own || has_key k inherited
  | None => false
  end.

(** *** Selection, in the specification's words *)

(** An arm whose match expression is callable matches when the call with
    the input returns exactly [true]; any other arm matches when its match
    expression is strictly equal to the input. *)
Definition armMatchesSpec (v : value) (arm : MatchArm) : M h bool :=
  match matchExpression arm with
  | VFun f => r <- ask h (Call f VUndefined [v]) ;; ret (isTrueValue r)
  | expression => ret (strict_eq expression v)
  end.

(** The scan of the non-default arms in list order, up to the first that
    matches. *)
Fixpoint firstMatchSpec (v : value) (arms : list MatchArm)
  : M h (option MatchArm) :=
  match arms with
  | [] => ret None
  | arm :: rest =>
      if isDefault arm then firstMatchSpec v rest
      else
        matches <- armMatchesSpec v arm ;;
        if matches then ret (Some arm) else firstMatchSpec v rest
  end.

(** The evaluation of the first matching arm, of the default arm when no
    arm matches. *)
Definition selectionSpec (v : value) (arms : list MatchArm)
  (default : MatchArm) : M h value :=
  hit <- firstMatchSpec v arms ;;
  ret (evaluation match hit with Some arm => arm | None => default end).

End Statements.

(** *** Normalisation *)

Definition itemsOf (v : value) : list value :=
  match v with VArr _ items => items | _ => [] end.

(** The arm an entry [[expr, eval]] becomes. *)
Definition entryArm (entry : value) : MatchArm :=
  {| matchExpression := nth 0 (itemsOf entry) VUndefined;
     evaluation := nth 1 (itemsOf entry) VUndefined |}.

Definition twoElementSequence (v : value) : bool :=
  match v with VArr _ [_; _] => true | _ => false end.

(** The advanced form in the specification's words: the entries of the
    sequence, with the trailing arguments, filtered to the two-element
    sequences. *)
Definition advancedArmsSpec (sequence : value) (rest : list value)
  : list MatchArm :=
  map entryArm (filter twoElementSequence (itemsOf sequence ++ rest)).

(** The arm a property of a record becomes. *)
Definition propertyArm (p : property value) : MatchArm :=
  {| matchExpression := key_value (pkey p); evaluation := pvalue p |}.

(** The basic form with its arms in the record's key order. *)
Definition basicArmsInKeyOrder (own : list (property value))
  : list MatchArm :=
  map propertyArm own.

(** The basic form as [normalizeBasicMatcher] orders it: the symbol keys,
    then the string keys, each group in the record's key order. *)
Definition basicArms (own : list (property value)) : list MatchArm :=
  map propertyArm
      (filter (fun p => is_symbol_key (pkey p)) own
       ++ filter (fun p => is_string_key (pkey p)) own).

Definition ownOf (v : value) : list (property value) :=
  match v with VObj _ own _ _ => own | _ => [] end.

Definition defaultCount (arms : list MatchArm) : nat :=
  List.length (filter isDefault arms).

Definition emptyMatcherError : exn :=
  JsError defaultErrorType "`matcher` has to contain at least one arm".

Definition missingDefaultError : exn :=
  JsError ReferenceError "`matcher` needs to contain a default `_def` arm".

Definition invalidShapeError : exn :=
  JsError TypeError "`matcher` has to be either an Object or an Array".

(** *** Further notions *)

(** What an evaluation gives for the input: the result of calling it with
    exactly the input when it is a function, the evaluation itself
    otherwise. *)
Definition evaluated (h : Host) (v evaluation : value) : M h value :=
  match evaluation with
  | VFun f => ask h (Call f VUndefined [v])
  | _ => ret evaluation
  end.


(** An arm that is not the default and whose match expression is strictly
    equal to the input. *)
Definition explicitLiteral (v : value) (arm : MatchArm) : bool :=
  negb (isDefault arm) && strict_eq (matchExpression arm) v.

(** An arm whose match expression is not a function. *)
Definition literalArm (arm : MatchArm) : bool :=
  negb (callable (matchExpression arm)).

(** The property key a value is, when it is a string or a symbol. *)
Definition keyOfValue (v : value) : option propkey :=
  match v with
  | VStr s => Some (PStr s)
  | VSym id => Some (PSym id)
  | _ => None
  end.

(** The value a record holds for the input: that of the own key equal to
    the input, that of the key [_def] when there is none or the input is
    [_def] itself. *)
Definition recordValue (own : list (property value)) (default v : value)
  : value :=
  match keyOfValue v with
  | Some k =>
      if propkey_eqb k (PSym 0) then default
      else match lookup k own with Some e => e | None => default end
  | None => default
  end.

(** The entry [[key, value]] of a property. *)
Definition propertyEntry (p : property value) : value :=
  VArr 0 [key_value (pkey p); pvalue p].

(** The own properties as [normalizeBasicMatcher] lists them. *)
Definition symbolsThenNames (own : list (property value))
  : list (property value) :=
  filter (fun p => is_symbol_key (pkey p)) own
  ++ filter (fun p => is_string_key (pkey p)) own.

(** An entry that becomes an arm other than a default arm. *)
Definition explicitEntry (entry : value) : bool :=
  nonEmptyArray entry && negb (isDefault (entryArm entry)).

(** Whether a predicate answers [true]. *)
Definition answers {h : Host} (p : value -> M h value) (v : value)
  (w : World h) : bool :=
  match p v w with
  | (Ok (VBool true), _) => true
  | _ => false
  end.

(** The predicates that tell the kind of a value. *)
Definition kinds (h : Host) : list (value -> M h value) :=
  [isBoolean h; isArray h; isObject h; isString h; isNumber h; isFunction h].

Definition isObjectValue (v : value) : bool :=
  match v with VObj _ _ _ _ => true | _ => false end.

(** The first two items of an entry. *)
Definition firstTwo (entry : value) : value :=
  match entry with
  | VArr ref (a :: b :: _) => VArr ref [a; b]
  | _ => entry
  end.

(** A record all of whose own properties are enumerable and keyed by a
    string. *)
Definition plainRecord (own : list (property value)) : bool :=
  forallb (fun p => is_string_key (pkey p) && penumerable p) own.

Definition isStringValue (v : value) : bool :=
  match v with VStr _ => true | _ => false end.

(** The own enumerable string keys of a property list, as [Object.keys]
    lists them. *)
Definition enumerableNames (own : list (property value)) : list value :=
  map (fun p => key_value (pkey p))
      (filter (fun p => is_string_key (pkey p) && penumerable p) own).

(** ** Concrete hosts and inputs *)

Module Sample.

Definition decimal (z : Z) : string :=
  DecimalString.NilZero.string_of_int (Z.to_int z).

(** Number::toString on the integers, NaN and the infinities; the
    examples use no other number as a key or in a template. *)
Definition print_number (n : number) : string :=
  match n with
  | NaN => "NaN"
  | Infinity true => "-Infinity"
  | Infinity false => "Infinity"
  | Finite q =>
      if is_integer n then decimal (Qnum q / Zpos (Qden q))
      else decimal (Qnum q) ++ "/" ++ decimal (Zpos (Qden q))
  end.

(** A host without caller code: every request throws. *)
Definition bare : Host := {|
  World := unit;
  perform := fun _ w => (Throw (JsError PlainError "no caller code"), w);
  number_to_string := print_number
|}.

(** The standard data properties every object literal inherits from
    [Object.prototype]; the built-in methods are functions 100 to 106. *)
Definition objectPrototype : list (property value) :=
  [Property (PStr "constructor") (VFun 100) false;
   Property (PStr "hasOwnProperty") (VFun 101) false;
   Property (PStr "isPrototypeOf") (VFun 102) false;
   Property (PStr "propertyIsEnumerable") (VFun 103) false;
   Property (PStr "toLocaleString") (VFun 104) false;
   Property (PStr "toString") (VFun 105) false;
   Property (PStr "valueOf") (VFun 106) false].

(** An object literal with the given own properties. *)
Definition literal (ref : nat) (own : list (propkey * value)) : value :=
  VObj ref (map (fun kv => Property (fst kv) (snd kv) true) own)
       objectPrototype [].

(** The template literal's conversion of its argument. *)
Definition display (v : value) : string :=
  match v with
  | VStr s => s
  | VNum n => print_number n
  | VBool true => "true"
  | VBool false => "false"
  | VNull => "null"
  | VUndefined => "undefined"
  | _ => "[object Object]"
  end.

(** The caller's functions:
    - 0 is the library's own [isPositiveInteger], passed as a predicate;
    - 1 is [(v) => `positive:${v}`];
    - 2 is [() => 1], whose result is truthy but not [true];
    - 3 is [function () { throw null }];
    - 4 is an arrow function [() => {}], which is not a constructor;
    - 5 is [function () {}], a constructor of empty objects. *)
Definition respond (r : request) : outcome value :=
  match r with
  | Call 0 _ args => fst (isPositiveInteger bare (nth 0 args VUndefined) tt)
  | Call 1 _ args => Ok (VStr ("positive:" ++ display (nth 0 args VUndefined)))
  | Call 2 _ _ => Ok (num 1)
  | Call 3 _ _ => Throw (Thrown VNull)
  | Construct 3 _ => Throw (Thrown VNull)
  | Construct 5 _ => Ok (literal 50 [])
  | Construct _ _ => Throw (JsError TypeError "val is not a constructor")
  | _ => Ok VUndefined
  end.

(** The world of this host is the log of the requests made so far. *)
Definition host : Host := {|
  World := list request;
  perform := fun r log => (respond r, log ++ [r]);
  number_to_string := print_number
|}.

(** [{ [_def]: "other", 5: "five" }]: the property name of the numeric
    literal [5] is the string ["5"], and an object lists its string keys
    before its symbol keys. *)
Definition otherFive : value :=
  literal 1 [(PStr "5", VStr "five"); (PSym 0, VStr "other")].

(** [{ a: 1, b: 2 }]. *)
Definition ab : value :=
  literal 2 [(PStr "a", num 1); (PStr "b", num 2)].

(** The arguments of [match(0)([_def, "a"], [_def, "b"])]. *)
Definition twoDefaults : list value :=
  [VArr 1 [_def; VStr "a"]; VArr 2 [_def; VStr "b"]].

(** [{ a: 1, [_def]: 2 }]. *)
Definition aDef : value :=
  literal 3 [(PStr "a", num 1); (PSym 0, num 2)].

(** The arguments of
    [match(3)([() => 1, "one"], [isPositiveInteger, (v) => `positive:${v}`],
              [_def, "n/a"])]. *)
Definition positiveArgs : list value :=
  [VArr 1 [VFun 2; VStr "one"]; VArr 2 [VFun 0; VFun 1];
   VArr 3 [_def; VStr "n/a"]].

(** The arguments of [match(7)([7, (v) => `positive:${v}`], [_def, "n/a"])]. *)
Definition sevenArgs : list value :=
  [VArr 1 [num 7; VFun 1]; VArr 2 [_def; VStr "n/a"]].

End Sample.

(** * Properties *)

Ltac split_ifs :=
  repeat match goal with
         | |- context [if ?b then _ else _] => destruct b
         end.

Ltac by_cases v :=
  destruct v as [ | | [] | [ | [] | ?] | ? | ? | ? | ? [ | ? ?] | ? ? ? ?];
  cbn; split_ifs.

Ltac boolean_by_cases :=
  let v := fresh "v" in
  let w := fresh "w" in
  intros v w; by_cases v; eexists; reflexivity.

(** ** The predicate layer *)

Section Predicate_facts.

Variable h : Host.

Lemma Qeq_bool_int (a b : Z) : Qeq_bool (inject_Z a) (inject_Z b) = (a =? b)%Z.
Proof. unfold Qeq_bool; cbn. now rewrite !Z.mul_1_r. Qed.

Lemma Qle_bool_int (a b : Z) : Qle_bool (inject_Z a) (inject_Z b) = (a <=? b)%Z.
Proof. unfold Qle_bool; cbn. now rewrite !Z.mul_1_r. Qed.

Lemma strict_eq_length {A B : Type} (l : list A) (m : list B) :
  strict_eq (length_value l) (length_value m)
  = Nat.eqb (List.length l) (List.length m).
Proof.
  unfold length_value, num, int; cbn. rewrite Qeq_bool_int.
  destruct (Nat.eqb_spec (List.length l) (List.length m)) as [E | E].
  - rewrite E. apply Z.eqb_refl.
  - apply Z.eqb_neq. lia.
Qed.

Lemma bind_run {A B : Type} (m : M h A) (k : A -> M h B) (w : World h)
  (a : A) (w' : World h) :
  m w = (Ok a, w') -> bind m k w = k a w'.
Proof. intros E. unfold bind. now rewrite E. Qed.

Lemma isMissing_run (v : value) (w : World h) :
  isMissing h v w = (Ok (VBool (missing v)), w).
Proof. destruct v; reflexivity. Qed.

Lemma isPresent_run (v : value) (w : World h) :
  isPresent h v w = (Ok (VBool (negb (missing v))), w).
Proof. destruct v; reflexivity. Qed.

Lemma isFunction_run (v : value) (w : World h) :
  isFunction h v w = (Ok (VBool (callable v)), w).
Proof. destruct v; reflexivity. Qed.

Lemma isArray_run (v : value) (w : World h) :
  isArray h v w = (Ok (VBool (Array_isArray v)), w).
Proof. destruct v; reflexivity. Qed.

Lemma isObject_run (v : value) (w : World h) :
  isObject h v w
  = (Ok (VBool match v with VObj _ _ _ _ => true | _ => false end), w).
Proof. destruct v; reflexivity. Qed.

Lemma isTrue_run (v : value) (w : World h) :
  isTrue h v w = (Ok (VBool (isTrueValue v)), w).
Proof. destruct v as [ | | [] | | | | | | ]; reflexivity. Qed.

Lemma isEqual_run (a b : value) (w : World h) :
  isEqual h a b w = (Ok (VBool (strict_eq a b)), w).
Proof. reflexivity. Qed.

Lemma isNonEmptyArray_run (v : value) (w : World h) :
  isNonEmptyArray h v w = (Ok (VBool (nonEmptyArray v)), w).
Proof. destruct v as [ | | | | | | | ? [ | ? ?] | ]; reflexivity. Qed.

Lemma isPositiveInteger_run (v : value) (w : World h) :
  isPositiveInteger h v w = (Ok (VBool (positiveInteger v)), w).
Proof.
  destruct v as [ | | | [ | [] | q] | | | | | ]; try reflexivity.
  unfold isPositiveInteger, and_, bind; cbn.
  destruct (Qnum q mod Z.pos (Qden q) =? 0)%Z; reflexivity.
Qed.

Lemma isNonNegativeInteger_int (z : Z) (w : World h) :
  isNonNegativeInteger h (num z) w = (Ok (VBool (0 <=? z)%Z), w).
Proof.
  unfold isNonNegativeInteger, and_, bind; cbn.
  rewrite Z.mod_1_r; cbn. unfold Qle_bool; cbn.
  now rewrite ?Z.mul_1_r.
Qed.

Lemma isNonNegativeInteger_index (i : option nat) (w : World h) :
  isNonNegativeInteger h (index_value i) w
  = (Ok (VBool match i with Some _ => true | None => false end), w).
Proof.
  destruct i as [n | ]; unfold index_value;
    rewrite isNonNegativeInteger_int; [ | reflexivity].
  destruct (Z.leb_spec 0 (Z.of_nat n)); [reflexivity | lia].
Qed.

Lemma predicates_boolean : Forall (returns_boolean_purely h) (predicates h).
Proof.
  unfold predicates.
  repeat (apply Forall_cons; [boolean_by_cases | ]).
  apply Forall_nil.
Qed.

(** The [filter] of [hasOnlyKeys] runs no caller code on primitive keys. *)
Lemma filter_in_run (ref : nat) (own inherited : list (property value))
  (classes : list builtin) (items : list value) (w : World h) :
  forallb primitive items = true ->
  filter_ h (fun key => in_ h key (VObj ref own inherited classes)) items w
  = (Ok (filter (hasProperty h own inherited) items), w).
Proof.
  induction items as [ | key rest IH]; intros P; [reflexivity | ].
  cbn in P. apply andb_true_iff in P as [Pk Pr].
  cbn [filter_ filter]. unfold bind at 1.
  assert (E : in_ h key (VObj ref own inherited classes) w
              = (Ok (VBool (hasProperty h own inherited key)), w)).
  { unfold in_, to_property_key, hasProperty, bind.
    destruct key as [ | | [] | | | | | | ]; try discriminate; reflexivity. }
  rewrite E. unfold bind. rewrite (IH Pr). cbn.
  destruct (hasProperty h own inherited key); reflexivity.
Qed.

Lemma hasOnlyKeys_run (ref : nat) (own inherited : list (property value))
  (classes : list builtin) (ref' : nat) (items : list value) (w : World h) :
  forallb primitive items = true ->
  hasOnlyKeys h (VObj ref own inherited classes) (VArr ref' items) w
  = (Ok (VBool
           (Nat.eqb (List.length (filter (hasProperty h own inherited) items))
                    (List.length (enumerableNames own))
            && Nat.eqb (List.length (enumerableNames own))
                       (List.length items))), w).
Proof.
  intros P. unfold hasOnlyKeys.
  rewrite (bind_run _ _ w (VBool true) w) by reflexivity.
  cbn [truthy].
  rewrite (bind_run _ _ w (enumerableNames own) w) by reflexivity.
  rewrite (bind_run _ _ w items w) by reflexivity.
  rewrite (bind_run _ _ w _ w
             (filter_in_run ref own inherited classes items w P)).
  unfold and_, isEqual, seq_, bind, ret. rewrite !strict_eq_length.
  cbn [truthy].
  destruct (Nat.eqb _ (List.length (enumerableNames own))); reflexivity.
Qed.

Lemma propkey_eqb_eq (j k : propkey) : propkey_eqb j k = true <-> j = k.
Proof.
  destruct j as [s | a], k as [t | b]; cbn; split; try discriminate.
  - intros E. apply String.eqb_eq in E. now subst.
  - intros E. injection E as ->. apply String.eqb_refl.
  - intros E. apply Nat.eqb_eq in E. now subst.
  - intros E. injection E as ->. apply Nat.eqb_refl.
Qed.

Lemma key_value_injective (j k : propkey) : key_value j = key_value k -> j = k.
Proof. destruct j, k; cbn; congruence. Qed.

Lemma enumerableNames_plain (own : list (property value)) :
  plainRecord own = true ->
  enumerableNames own = map key_value (map pkey own).
Proof.
  intros P. unfold enumerableNames. rewrite (forallb_filter_id _ _ P).
  now rewrite map_map.
Qed.

Lemma NoDup_key_values (keys : list propkey) :
  NoDup keys -> NoDup (map key_value keys).
Proof.
  induction 1 as [ | k rest N D IH]; cbn; constructor; [ | exact IH].
  intros I. apply in_map_iff in I as (j & E & I).
  apply key_value_injective in E. now subst.
Qed.

Lemma has_key_In (k : propkey) (ps : list (property value)) :
  has_key k ps = true <-> In k (map pkey ps).
Proof.
  unfold has_key. rewrite existsb_exists, in_map_iff.
  split; intros (p & A & B).
  - exists p. split; [now apply propkey_eqb_eq | exact A].
  - exists p. split; [exact B | now apply propkey_eqb_eq].
Qed.

Lemma hasProperty_name (own : list (property value)) (s : string) :
  plainRecord own = true ->
  hasProperty h own [] (VStr s) = true <-> In (VStr s) (enumerableNames own).
Proof.
  intros P. rewrite (enumerableNames_plain own P).
  unfold hasProperty; cbn. rewrite orb_false_r, has_key_In.
  change (VStr s) with (key_value (PStr s)). split; intros I.
  - now apply in_map.
  - apply in_map_iff in I as (j & E & I).
    apply key_value_injective in E. now subst.
Qed.

(** Where [hasOnlyKeys] does compare key sets: on a plain record without
    inherited properties and distinct string keys. *)
Lemma hasOnlyKeys_plain_distinct (ref : nat) (own : list (property value))
  (classes : list builtin) (ref' : nat) (items : list value) (w : World h) :
  NoDup (map pkey own) -> plainRecord own = true ->
  NoDup items -> forallb isStringValue items = true ->
  hasOnlyKeys h (VObj ref own [] classes) (VArr ref' items) w
  = (Ok (VBool true), w)
  <-> (forall k, In k (enumerableNames own) <-> In k items).
Proof.
  intros Do Po Di Si.
  assert (Pi : forallb primitive items = true).
  { apply forallb_forall. intros k I.
    rewrite forallb_forall in Si. specialize (Si k I).
    destruct k; try discriminate; reflexivity. }
  assert (Dn : NoDup (enumerableNames own))
    by (rewrite (enumerableNames_plain own Po); now apply NoDup_key_values).
  assert (Hp : forall k, In k items ->
                 (hasProperty h own [] k = true
                  <-> In k (enumerableNames own))).
  { intros k I. rewrite forallb_forall in Si. specialize (Si k I).
    destruct k; try discriminate. now apply hasProperty_name. }
  rewrite (hasOnlyKeys_run ref own [] classes ref' items w Pi).
  split.
  - intros E. injection E as E. apply andb_true_iff in E as [Ef En].
    apply Nat.eqb_eq in Ef, En. rewrite En in Ef.
    apply filter_length_forallb in Ef. rewrite forallb_forall in Ef.
    assert (Inc : incl items (enumerableNames own))
      by (intros k I; apply (Hp k I), Ef, I).
    intros k. split; [ | apply Inc].
    apply (NoDup_length_incl Di); [lia | exact Inc].
  - intros S.
    assert (Inc : incl items (enumerableNames own))
      by (intros k I; now apply S).
    assert (Inc' : incl (enumerableNames own) items)
      by (intros k I; now apply S).
    assert (F : filter (hasProperty h own []) items = items).
    { apply forallb_filter_id, forallb_forall.
      intros k I. apply (Hp k I), Inc, I. }
    rewrite F.
    pose proof (NoDup_incl_length Di Inc).
    pose proof (NoDup_incl_length Dn Inc').
    assert (L : List.length (enumerableNames own) = List.length items) by lia.
    now rewrite L, Nat.eqb_refl.
Qed.

Lemma hasOnlyKeys_boolean (val keys : value) (w : World h) :
  primitiveKeys keys = true ->
  exists r, hasOnlyKeys h val keys w = (Ok (VBool r), w).
Proof.
  intros P.
  destruct val as [ | | | | | | | | ref own inherited classes];
    try (eexists; reflexivity).
  destruct keys as [ | | | | | | | ref' items | ];
    try (eexists; reflexivity).
  eexists. apply hasOnlyKeys_run. exact P.
Qed.

Lemma isConstructable_not_callable (val : value) (w : World h) :
  callable val = false -> isConstructable h val w = (Ok (VBool false), w).
Proof. destruct val; try discriminate; reflexivity. Qed.

Lemma isConstructable_constructs (f : nat) (w w' : World h) (o : value) :
  perform h (Construct f []) w = (Ok o, w') ->
  isConstructable h (VFun f) w = (Ok (VBool true), w').
Proof.
  intros E. unfold isConstructable, bind, try_catch; cbn.
  unfold ask. now rewrite E.
Qed.

Lemma isConstructable_error (f : nat) (w w' : World h) (kind : error_kind)
  (message : string) :
  perform h (Construct f []) w = (Throw (JsError kind message), w') ->
  isConstructable h (VFun f) w = (Ok (VBool (negb (mentions message))), w').
Proof.
  intros E. unfold isConstructable, bind, try_catch; cbn.
  unfold ask. rewrite E. cbn. unfold not_, bind.
  rewrite isNonNegativeInteger_index. unfold mentions.
  destruct (String.index 0 "is not a constructor" message); reflexivity.
Qed.

End Predicate_facts.

(** ** The dispatcher *)

Section Match_facts.

Variable h : Host.

(** The callback of the second [find] answers with the boolean of the
    specification's rule. *)
Lemma armMatches_run (v : value) (arm : MatchArm) (w : World h) :
  isDefault arm = false ->
  armMatches h v arm w = bind (armMatchesSpec h v arm) (fun b => ret (VBool b)) w.
Proof.
  unfold isDefault, armMatches, armMatchesSpec. intros D. rewrite D.
  destruct (matchExpression arm) as [ | | | | | | f | | ];
    try reflexivity.
  rewrite (bind_run h _ _ w (VBool true) w) by reflexivity.
  cbn [truthy call_]. unfold bind, ask.
  destruct (perform h (Call f VUndefined [v]) w) as [[r | e] w'];
    [apply isTrue_run | reflexivity].
Qed.

Lemma armMatches_default (v : value) (arm : MatchArm) (w : World h) :
  isDefault arm = true -> armMatches h v arm w = (Ok (VBool false), w).
Proof. unfold isDefault, armMatches. intros D. now rewrite D. Qed.

Lemma selection_run (v : value) (arms : list MatchArm) (default : MatchArm)
  (w : World h) :
  bind (explicitMatch h v arms)
       (fun explicit => selectedEvaluation h explicit (Some default)) w
  = selectionSpec h v arms default w.
Proof.
  unfold explicitMatch, selectionSpec. revert w.
  induction arms as [ | arm rest IH]; intros w; [reflexivity | ].
  cbn [find_ firstMatchSpec]. unfold bind in IH |- *.
  destruct (isDefault arm) eqn:D.
  - rewrite (armMatches_default v arm w D). cbn [truthy]. apply IH.
  - rewrite (armMatches_run v arm w D). unfold bind.
    destruct (armMatchesSpec h v arm w) as [[[ | ] | e] w'].
    + reflexivity.
    + cbn [ret truthy]. apply IH.
    + reflexivity.
Qed.

(** *** Normalisation runs no caller code *)

Lemma filter_nonEmpty_run (args : list value) (w : World h) :
  filter_ h (isNonEmptyArray h) args w = (Ok (filter nonEmptyArray args), w).
Proof.
  induction args as [ | arg rest IH]; [reflexivity | ].
  cbn [filter_ filter]. unfold bind.
  rewrite isNonEmptyArray_run, IH. cbn [truthy].
  destruct (nonEmptyArray arg); reflexivity.
Qed.

Lemma map_entries_run (entries : list value) (w : World h) :
  forallb nonEmptyArray entries = true ->
  map_ h (armOfEntry h) entries w = (Ok (map entryArm entries), w).
Proof.
  induction entries as [ | entry rest IH]; intros N; [reflexivity | ].
  cbn in N. apply andb_true_iff in N as [Ne Nr].
  cbn [map_ map].
  rewrite (bind_run h _ _ w (entryArm entry) w)
    by (destruct entry; try discriminate; reflexivity).
  now rewrite (bind_run h _ _ w _ w (IH Nr)).
Qed.

Lemma filter_forallb {A : Type} (p : A -> bool) (l : list A) :
  forallb p (filter p l) = true.
Proof.
  induction l as [ | x rest IH]; [reflexivity | ].
  cbn. destruct (p x) eqn:E; [cbn; now rewrite E | exact IH].
Qed.

Lemma normalizeAdvancedMatcher_run (args : list value) (w : World h) :
  normalizeAdvancedMatcher h args w
  = (Ok (map entryArm (filter nonEmptyArray args)), w).
Proof.
  unfold normalizeAdvancedMatcher.
  rewrite (bind_run h _ _ w _ w (filter_nonEmpty_run args w)).
  apply map_entries_run, filter_forallb.
Qed.

Lemma normalizedArms_array (ref : nat) (items rest : list value)
  (w : World h) :
  normalizedArms h (VArr ref items :: rest) w
  = (Ok (map entryArm (filter nonEmptyArray (VArr ref items :: rest))), w).
Proof.
  unfold normalizedArms. cbn [nth tl].
  rewrite (bind_run h _ _ w (VBool true) w) by reflexivity.
  cbn [truthy negb].
  rewrite (bind_run h _ _ w (VBool false) w) by reflexivity.
  cbn [truthy]. apply normalizeAdvancedMatcher_run.
Qed.

(** In an object whose own keys are distinct, reading a key gives the
    value of the property that carries it. *)
Lemma lookup_own (own : list (property value)) (p : property value) :
  NoDup (map pkey own) -> In p own -> lookup (pkey p) own = Some (pvalue p).
Proof.
  unfold lookup.
  induction own as [ | q rest IH]; intros D I; [contradiction | ].
  cbn in D. inversion D as [ | ? ? Nq Dr]; subst.
  cbn [find]. destruct I as [-> | I].
  - assert (E : propkey_eqb (pkey p) (pkey p) = true)
      by now apply propkey_eqb_eq.
    now rewrite E.
  - destruct (propkey_eqb (pkey q) (pkey p)) eqn:E.
    + apply propkey_eqb_eq in E. exfalso. apply Nq. rewrite E.
      now apply in_map.
    + now apply IH.
Qed.

Lemma member_own (ref : nat) (own inherited : list (property value))
  (classes : list builtin) (p : property value) (w : World h) :
  NoDup (map pkey own) -> In p own ->
  member h (VObj ref own inherited classes) (key_value (pkey p)) w
  = (Ok (pvalue p), w).
Proof.
  intros D I. unfold member.
  rewrite (bind_run h _ _ w (pkey p) w)
    by (unfold to_property_key; destruct (pkey p); reflexivity).
  unfold get. now rewrite (lookup_own own p D I).
Qed.

Lemma map_member_run (ref : nat) (own inherited : list (property value))
  (classes : list builtin) (ps : list (property value)) (w : World h) :
  NoDup (map pkey own) -> incl ps own ->
  map_ h (fun key =>
            value_at_key <- member h (VObj ref own inherited classes) key ;;
            ret {| matchExpression := key; evaluation := value_at_key |})
       (map (fun p => key_value (pkey p)) ps) w
  = (Ok (map propertyArm ps), w).
Proof.
  intros D. induction ps as [ | p rest IH]; intros I; [reflexivity | ].
  cbn [map map_].
  rewrite (bind_run h _ _ w (propertyArm p) w).
  - rewrite (bind_run h _ _ w (map propertyArm rest) w); [reflexivity | ].
    apply IH. intros q Iq. apply I. now right.
  - rewrite (bind_run h _ _ w (pvalue p) w); [reflexivity | ].
    apply member_own; [exact D | apply I; now left].
Qed.

Lemma normalizeBasicMatcher_run (ref : nat)
  (own inherited : list (property value)) (classes : list builtin)
  (w : World h) :
  NoDup (map pkey own) ->
  normalizeBasicMatcher h (VObj ref own inherited classes) w
  = (Ok (basicArms own), w).
Proof.
  intros D. unfold normalizeBasicMatcher, basicArms.
  rewrite (bind_run h _ _ w _ w) by reflexivity.
  rewrite (bind_run h _ _ w _ w) by reflexivity.
  rewrite <- map_app. apply map_member_run; [exact D | ].
  intros p I. apply in_app_or in I as [I | I];
    apply filter_In in I; tauto.
Qed.

Lemma normalizedArms_object (ref : nat)
  (own inherited : list (property value)) (classes : list builtin)
  (rest : list value) (w : World h) :
  NoDup (map pkey own) ->
  normalizedArms h (VObj ref own inherited classes :: rest) w
  = (Ok (basicArms own), w).
Proof.
  intros D. unfold normalizedArms. cbn [nth tl].
  rewrite (bind_run h _ _ w (VBool true) w) by reflexivity.
  cbn [truthy negb].
  rewrite (bind_run h _ _ w (VBool true) w) by reflexivity.
  cbn [truthy]. now apply normalizeBasicMatcher_run.
Qed.

(** *** Validation *)

Lemma find_default_run (arms : list MatchArm) (w : World h) :
  find_ h (fun arm => seq_ h (matchExpression arm) _def) arms w
  = (Ok (find isDefault arms), w).
Proof.
  induction arms as [ | arm rest IH]; [reflexivity | ].
  cbn [find_ find]. unfold bind, seq_, ret at 1. fold (isDefault arm).
  cbn [truthy]. destruct (isDefault arm); [reflexivity | exact IH].
Qed.

Lemma defaultArm_run (arms : list MatchArm) (w : World h) :
  defaultArm h arms w
  = match arms, find isDefault arms with
    | [], _ => (Throw emptyMatcherError, w)
    | _ :: _, Some arm => (Ok (Some arm), w)
    | _ :: _, None => (Throw missingDefaultError, w)
    end.
Proof.
  unfold defaultArm. destruct arms as [ | arm rest]; [reflexivity | ].
  rewrite (bind_run h _ _ w tt w) by reflexivity.
  rewrite (bind_run h _ _ w _ w (find_default_run (arm :: rest) w)).
  destruct (find isDefault (arm :: rest)); reflexivity.
Qed.

Lemma result_run (val evaluation : value) (w : World h) :
  result h val evaluation w
  = match evaluation with
    | VFun f => perform h (Call f VUndefined [val]) w
    | _ => (Ok evaluation, w)
    end.
Proof. destruct evaluation; reflexivity. Qed.

(** [match] is its four stages in sequence. *)
Lemma match_run (v : value) (args : list value) (arms : list MatchArm)
  (default : option MatchArm) (w w1 w2 : World h) :
  normalizedArms h args w = (Ok arms, w1) ->
  defaultArm h arms w1 = (Ok default, w2) ->
  match_ h v args w
  = bind (bind (explicitMatch h v arms)
               (fun explicit => selectedEvaluation h explicit default))
         (result h v) w2.
Proof.
  intros N D. unfold match_.
  rewrite (bind_run h _ _ w arms w1 N), (bind_run h _ _ w1 default w2 D).
  unfold bind.
  destruct (explicitMatch h v arms w2) as [[explicit | e] w3]; reflexivity.
Qed.

Lemma match_spec_run (v : value) (args : list value) (arms : list MatchArm)
  (default : MatchArm) (w w1 : World h) :
  normalizedArms h args w = (Ok arms, w1) ->
  defaultArm h arms w1 = (Ok (Some default), w1) ->
  match_ h v args w
  = bind (selectionSpec h v arms default) (result h v) w1.
Proof.
  intros N D. rewrite (match_run v args arms (Some default) w w1 w1 N D).
  unfold bind at 1 3. now rewrite <- selection_run.
Qed.

Lemma find_default_count (arms : list MatchArm) :
  find isDefault arms = None <-> defaultCount arms = 0.
Proof.
  unfold defaultCount.
  induction arms as [ | arm rest IH]; cbn; [tauto | ].
  destruct (isDefault arm); cbn; [ | exact IH].
  split; discriminate.
Qed.

End Match_facts.

(** ** The claims about the dispatcher *)

(** C1. For every input [v] and every normalized arm list that passes the
    validation, [match] scans the non-default arms in list order; an arm
    with a callable match expression matches exactly when the call with
    [v] returns the boolean [true], any other arm exactly when its match
    expression is strictly equal to [v]; the evaluation of the first
    matching arm is used, that of the default arm when none matches. *)
Theorem match_selects_first_match (h : Host) (v : value) (args : list value)
  (arms : list MatchArm) (default : MatchArm) (w w1 : World h) :
  normalizedArms h args w = (Ok arms, w1) ->
  defaultArm h arms w1 = (Ok (Some default), w1) ->
  match_ h v args w
  = bind (selectionSpec h v arms default) (result h v) w1.
Proof.
  apply match_spec_run.
Qed.

Lemma match_selects_first_match_witness :
  normalizedArms Sample.host Sample.positiveArgs []
  = (Ok (map entryArm Sample.positiveArgs), [])
  /\ defaultArm Sample.host (map entryArm Sample.positiveArgs) []
     = (Ok (Some (entryArm (VArr 3 [_def; VStr "n/a"]))), [])
  /\ match_ Sample.host (num 3) Sample.positiveArgs []
     = bind (selectionSpec Sample.host (num 3)
               (map entryArm Sample.positiveArgs)
               (entryArm (VArr 3 [_def; VStr "n/a"])))
            (result Sample.host (num 3)) [].
Proof.
  split; [reflexivity | ]. split; [reflexivity | ].
  apply (match_selects_first_match Sample.host (num 3) _ _ _ [] []);
    reflexivity.
Defined.

(** C5. For every input [v] and every selected arm: when the arm's
    evaluation is a function, [match] calls it with exactly [v] and returns
    the result of that call; otherwise [match] returns the evaluation as it
    is and calls nothing more. *)
Theorem match_result_of_evaluation (h : Host) (v : value)
  (args : list value) (arms : list MatchArm) (default : option MatchArm)
  (evaluation : value) (w w1 w2 : World h) :
  normalizedArms h args w = (Ok arms, w1) ->
  defaultArm h arms w1 = (Ok default, w1) ->
  bind (explicitMatch h v arms)
       (fun explicit => selectedEvaluation h explicit default) w1
  = (Ok evaluation, w2) ->
  match_ h v args w
  = match evaluation with
    | VFun f => perform h (Call f VUndefined [v]) w2
    | _ => (Ok evaluation, w2)
    end.
Proof.
  intros N D S. rewrite (match_run h v args arms default w w1 w1 N D).
  rewrite (bind_run h _ _ w1 evaluation w2 S). apply result_run.
Qed.

Lemma match_result_of_evaluation_witness :
  normalizedArms Sample.host Sample.sevenArgs []
  = (Ok (map entryArm Sample.sevenArgs), [])
  /\ defaultArm Sample.host (map entryArm Sample.sevenArgs) []
     = (Ok (Some (entryArm (VArr 2 [_def; VStr "n/a"]))), [])
  /\ bind (explicitMatch Sample.host (num 7)
             (map entryArm Sample.sevenArgs))
          (fun explicit =>
             selectedEvaluation Sample.host explicit
               (Some (entryArm (VArr 2 [_def; VStr "n/a"])))) []
     = (Ok (VFun 1), [])
  /\ match_ Sample.host (num 7) Sample.sevenArgs []
     = perform Sample.host (Call 1 VUndefined [num 7]) [].
Proof.
  split; [reflexivity | ]. split; [reflexivity | ].
  split; [reflexivity | ].
  apply (match_result_of_evaluation Sample.host (num 7) Sample.sevenArgs
           (map entryArm Sample.sevenArgs)
           (Some (entryArm (VArr 2 [_def; VStr "n/a"]))) (VFun 1) [] [] []);
    reflexivity.
Defined.

(** C2 (amended). In the advanced form, the arguments of the call
    [match(v)(first, ...rest)], with [first] an array, are filtered to the
    non-empty arrays; each surviving argument becomes one arm, whose match
    expression and evaluation are its first two items ([undefined] where it
    has none); the other arguments are dropped and no error is raised. *)
Theorem advanced_form_arms (h : Host) (ref : nat) (items rest : list value)
  (w : World h) :
  normalizedArms h (VArr ref items :: rest) w
  = (Ok (map entryArm (filter nonEmptyArray (VArr ref items :: rest))), w).
Proof. apply normalizedArms_array. Qed.

(** C2 as stated fails: the sequence passed as first argument is itself
    one entry, its items are not the entries. *)
Lemma advanced_form_arms_counterexample :
  normalizedArms Sample.host
    [VArr 1 [VArr 2 [num 1; VStr "a"]; VArr 3 [_def; VStr "d"]]] []
  <> (Ok (advancedArmsSpec
            (VArr 1 [VArr 2 [num 1; VStr "a"]; VArr 3 [_def; VStr "d"]]) []),
      []).
Proof. intros E. vm_compute in E. discriminate E. Qed.

(** C3 (amended). [match("5")({ [_def]: "other", 5: "five" })] returns
    ["five"]; with the number [5], as with [6], the same matcher returns
    ["other"], the key of the record being the string ["5"]. *)
Theorem basic_form_examples (h : Host) (w : World h) :
  match_ h (VStr "5") [Sample.otherFive] w = (Ok (VStr "five"), w)
  /\ match_ h (num 5) [Sample.otherFive] w = (Ok (VStr "other"), w)
  /\ match_ h (num 6) [Sample.otherFive] w = (Ok (VStr "other"), w).
Proof. repeat split; reflexivity. Qed.

(** C3 as stated fails: the number [5] is not strictly equal to the key
    ["5"]. *)
Lemma basic_form_examples_counterexample :
  ~ (match_ Sample.host (num 5) [Sample.otherFive] []
     = (Ok (VStr "five"), [])
     /\ match_ Sample.host (num 6) [Sample.otherFive] []
        = (Ok (VStr "other"), [])).
Proof. intros [E _]. vm_compute in E. discriminate E. Qed.

(** C6. For every input [v], [match(v)([])] raises the empty-matcher error
    and [match(v)([[x, y]])] raises the missing-default error, a
    [ReferenceError], which is another kind than the one of the
    empty-matcher error and of the invalid-shape error. *)
Theorem validation_errors (h : Host) (v : value) (w : World h) :
  (forall ref, match_ h v [VArr ref []] w = (Throw emptyMatcherError, w))
  /\ (forall ref ref' x y,
        match_ h v [VArr ref [VArr ref' [x; y]]] w
        = (Throw missingDefaultError, w))
  /\ match_ h v [num 42] w = (Throw invalidShapeError, w)
  /\ (exists message, missingDefaultError = JsError ReferenceError message)
  /\ (forall message, emptyMatcherError <> JsError ReferenceError message)
  /\ (forall message, invalidShapeError <> JsError ReferenceError message).
Proof.
  split; [reflexivity | ]. split; [reflexivity | ].
  split; [reflexivity | ]. split; [eexists; reflexivity | ].
  split; intros message E; discriminate E.
Qed.

(** C4 (amended). With the arms passed as separate arguments,
    [match(-3)([isPositiveInteger, "pos"], [_def, "not-pos"])] returns
    ["not-pos"], and
    [match(3)([isPositiveInteger, (v) => `positive:${v}`], [_def, "n/a"])]
    returns ["positive:3"]. *)
Theorem advanced_form_examples (h : Host) (p f r1 r2 : nat) (w : World h) :
  (forall v w', fst (perform h (Call p VUndefined [v]) w')
                = fst (isPositiveInteger h v w')) ->
  (forall w', fst (perform h (Call f VUndefined [num 3]) w')
              = Ok (VStr "positive:3")) ->
  fst (match_ h (num (-3))
         [VArr r1 [VFun p; VStr "pos"]; VArr r2 [_def; VStr "not-pos"]] w)
  = Ok (VStr "not-pos")
  /\ fst (match_ h (num 3)
            [VArr r1 [VFun p; VFun f]; VArr r2 [_def; VStr "n/a"]] w)
     = Ok (VStr "positive:3").
Proof.
  intros P F. split.
  - erewrite match_spec_run; [ | apply normalizedArms_array | reflexivity].
    unfold selectionSpec, bind. cbn. unfold bind, ask.
    pose proof (P (num (-3)) w) as Pw.
    destruct (perform h (Call p VUndefined [num (-3)]) w) as [o w'].
    cbn in Pw. subst o. reflexivity.
  - erewrite match_spec_run; [ | apply normalizedArms_array | reflexivity].
    unfold selectionSpec, bind. cbn. unfold bind, ask.
    pose proof (P (num 3) w) as Pw.
    destruct (perform h (Call p VUndefined [num 3]) w) as [o w'].
    cbn in Pw. subst o. cbn. unfold ask. apply F.
Qed.

Lemma advanced_form_examples_witness :
  (forall v w', fst (perform Sample.host (Call 0 VUndefined [v]) w')
                = fst (isPositiveInteger Sample.host v w'))
  /\ (forall w', fst (perform Sample.host (Call 1 VUndefined [num 3]) w')
                 = Ok (VStr "positive:3"))
  /\ fst (match_ Sample.host (num (-3))
            [VArr 1 [VFun 0; VStr "pos"]; VArr 2 [_def; VStr "not-pos"]] [])
     = Ok (VStr "not-pos")
  /\ fst (match_ Sample.host (num 3)
            [VArr 1 [VFun 0; VFun 1]; VArr 2 [_def; VStr "n/a"]] [])
     = Ok (VStr "positive:3").
Proof.
  assert (P : forall v w',
             fst (perform Sample.host (Call 0 VUndefined [v]) w')
             = fst (isPositiveInteger Sample.host v w')).
  { intros v w'. cbn.
    now rewrite (isPositiveInteger_run Sample.bare v tt),
                (isPositiveInteger_run Sample.host v w'). }
  split; [exact P | ]. split; [reflexivity | ].
  apply (advanced_form_examples Sample.host 0 1 1 2 []);
    [exact P | reflexivity].
Defined.

(** C4 as stated fails: passed as one sequence, the two arms are a single
    entry, which carries no default sentinel. *)
Lemma advanced_form_examples_counterexample :
  ~ (fst (match_ Sample.host (num (-3))
            [VArr 1 [VArr 2 [VFun 0; VStr "pos"];
                     VArr 3 [_def; VStr "not-pos"]]] [])
     = Ok (VStr "not-pos")
     /\ fst (match_ Sample.host (num 3)
               [VArr 1 [VArr 2 [VFun 0; VFun 1];
                        VArr 3 [_def; VStr "n/a"]]] [])
        = Ok (VStr "positive:3")).
Proof. intros [E _]. vm_compute in E. discriminate E. Qed.

(** C8 (amended). A normalized arm list is accepted exactly when at least
    one of its arms carries the default sentinel [_def], and the first of
    them is then the default arm; a non-empty list without one raises the
    missing-default error, the empty list the empty-matcher error. *)
Theorem default_arm_validation (h : Host) (arms : list MatchArm)
  (w : World h) :
  ((exists default, defaultArm h arms w = (Ok default, w))
   <-> 1 <= defaultCount arms)
  /\ (forall default,
        defaultArm h arms w = (Ok default, w) ->
        default = find isDefault arms /\ default <> None)
  /\ (arms <> [] -> defaultCount arms = 0 ->
      defaultArm h arms w = (Throw missingDefaultError, w))
  /\ (arms = [] -> defaultArm h arms w = (Throw emptyMatcherError, w)).
Proof.
  rewrite defaultArm_run.
  pose proof (find_default_count arms) as C.
  destruct arms as [ | arm rest].
  - split; [split | split; [ | split]].
    + intros [default E]. discriminate E.
    + cbn. lia.
    + intros default E. discriminate E.
    + intros N. contradiction.
    + reflexivity.
  - destruct (find isDefault (arm :: rest)) as [first | ].
    + assert (N : defaultCount (arm :: rest) <> 0)
        by (intros Z; apply C in Z; discriminate Z).
      split; [split | split; [ | split]].
      * intros _. lia.
      * intros _. now exists (Some first).
      * intros default E. injection E as <-.
        split; [reflexivity | discriminate].
      * intros _ Z. contradiction.
      * discriminate.
    + assert (Z : defaultCount (arm :: rest) = 0) by now apply C.
      split; [split | split; [ | split]].
      * intros [default E]. discriminate E.
      * lia.
      * intros default E. discriminate E.
      * reflexivity.
      * discriminate.
Qed.

Lemma default_arm_validation_witness :
  Sample.twoDefaults <> []
  /\ defaultArm Sample.host (map entryArm Sample.twoDefaults) []
     = (Ok (find isDefault (map entryArm Sample.twoDefaults)), [])
  /\ 1 <= defaultCount (map entryArm Sample.twoDefaults).
Proof.
  split; [discriminate | ]. split; [reflexivity | ].
  apply (default_arm_validation Sample.host
           (map entryArm Sample.twoDefaults) []).
  eexists. reflexivity.
Defined.

(** C8 as stated fails: a list with two default arms is accepted. *)
Lemma default_arm_validation_counterexample :
  ~ (forall arms default,
       defaultArm Sample.host arms [] = (Ok default, []) ->
       defaultCount arms = 1).
Proof.
  intros H.
  specialize (H (map entryArm Sample.twoDefaults) _ eq_refl).
  discriminate H.
Qed.

(** C9 (amended). The arms of the advanced form are in the order of the
    call's arguments.  The arms of the basic form are those of the record's
    symbol keys, in the record's key order, followed by those of its string
    keys, in the record's key order.  First-match-wins selection scans the
    normalized list in that order. *)
Theorem normalized_arm_order (h : Host) (w : World h) :
  (forall ref own inherited classes rest,
     NoDup (map pkey own) ->
     normalizedArms h (VObj ref own inherited classes :: rest) w
     = (Ok (basicArms own), w))
  /\ (forall ref items rest,
        normalizedArms h (VArr ref items :: rest) w
        = (Ok (map entryArm (filter nonEmptyArray (VArr ref items :: rest))),
           w))
  /\ (forall v args arms default w1,
        normalizedArms h args w = (Ok arms, w1) ->
        defaultArm h arms w1 = (Ok (Some default), w1) ->
        match_ h v args w
        = bind (selectionSpec h v arms default) (result h v) w1).
Proof.
  split; [ | split].
  - intros. now apply normalizedArms_object.
  - intros. apply normalizedArms_array.
  - intros. now apply match_spec_run.
Qed.

Lemma normalized_arm_order_witness :
  NoDup (map pkey (ownOf Sample.aDef))
  /\ normalizedArms Sample.host [Sample.aDef] []
     = (Ok (basicArms (ownOf Sample.aDef)), []).
Proof.
  assert (D : NoDup (map pkey (ownOf Sample.aDef))).
  { cbn. repeat constructor; cbn; intuition discriminate. }
  split; [exact D | ].
  apply (normalized_arm_order Sample.host []). exact D.
Defined.

(** C9 as stated fails: the arm of a symbol key comes first wherever the
    record has it. *)
Lemma normalized_arm_order_counterexample :
  normalizedArms Sample.host [Sample.aDef] []
  <> (Ok (basicArmsInKeyOrder (ownOf Sample.aDef)), []).
Proof. intros E. vm_compute in E. discriminate E. Qed.

(** ** The claims about the predicate layer *)

(** C7 (amended). On the values of the model (primitives, functions,
    arrays and ordinary objects with data properties; no proxy, no
    accessor), every predicate of the predicate layer other than
    [isConstructable] and [hasOnlyKeys] answers every input with a boolean,
    throws on none and has no side effect, and so do [isEqual] and, when
    the elements of [keys] are primitive values, [hasOnlyKeys].
    [isConstructable] answers [false], without side effect, for a value
    that is not a function; for a function it runs [new val()], with the
    side effects of that construction, and answers [true] when the
    construction succeeds and, when it throws an error object, whether the
    error's message does not contain "is not a constructor". *)
Theorem predicates_total (h : Host) :
  Forall (returns_boolean_purely h) (predicates h)
  /\ (forall a b w, exists r, isEqual h a b w = (Ok (VBool r), w))
  /\ (forall val keys w,
        primitiveKeys keys = true ->
        exists r, hasOnlyKeys h val keys w = (Ok (VBool r), w))
  /\ (forall val w,
        callable val = false ->
        isConstructable h val w = (Ok (VBool false), w))
  /\ (forall f w w' o,
        perform h (Construct f []) w = (Ok o, w') ->
        isConstructable h (VFun f) w = (Ok (VBool true), w'))
  /\ (forall f w w' kind message,
        perform h (Construct f []) w = (Throw (JsError kind message), w') ->
        isConstructable h (VFun f) w
        = (Ok (VBool (negb (mentions message))), w')).
Proof.
  split; [apply predicates_boolean | ].
  split; [intros a b w; eexists; apply isEqual_run | ].
  split; [intros val keys w; apply hasOnlyKeys_boolean | ].
  split; [apply isConstructable_not_callable | ].
  split; [apply isConstructable_constructs | apply isConstructable_error].
Qed.

Lemma predicates_total_witness :
  (primitiveKeys (VArr 1 [VStr "a"; num 0; VSym 0]) = true
   /\ exists r,
        hasOnlyKeys Sample.host Sample.ab
          (VArr 1 [VStr "a"; num 0; VSym 0]) []
        = (Ok (VBool r), []))
  /\ (callable Sample.ab = false
      /\ isConstructable Sample.host Sample.ab [] = (Ok (VBool false), []))
  /\ (perform Sample.host (Construct 5 []) []
      = (Ok (Sample.literal 50 []), [Construct 5 []])
      /\ isConstructable Sample.host (VFun 5) []
         = (Ok (VBool true), [Construct 5 []]))
  /\ (perform Sample.host (Construct 4 []) []
      = (Throw (JsError TypeError "val is not a constructor"),
         [Construct 4 []])
      /\ isConstructable Sample.host (VFun 4) []
         = (Ok (VBool (negb (mentions "val is not a constructor"))),
            [Construct 4 []])).
Proof.
  destruct (predicates_total Sample.host) as (_ & _ & K & N & C & E).
  split; [split; [reflexivity | apply K; reflexivity] | ].
  split; [split; [reflexivity | apply N; reflexivity] | ].
  split; [split; [reflexivity | eapply C; reflexivity] | ].
  split; [reflexivity | apply (E 4 [] [Construct 4 []] TypeError); reflexivity].
Defined.

(** C7 as stated fails: [isConstructable] constructs the value it is
    given, so for the constructor [function () {}] it answers [true] and
    the construction has been run: the world is not the one it found. *)
Lemma predicates_total_counterexample :
  isConstructable Sample.host (VFun 5) []
  = (Ok (VBool true), [Construct 5 []])
  /\ ~ (exists b,
          isConstructable Sample.host (VFun 5) [] = (Ok (VBool b), [])).
Proof.
  split; [reflexivity | ].
  intros [b E]. vm_compute in E. discriminate E.
Qed.

(** C10. [hasOnlyKeys({ a: 1, b: 2 }, ["a", "a"])] returns [true], though
    the own keys of the object are not the elements of [keys]: the key
    ["b"] is not among them. *)
Theorem hasOnlyKeys_duplicate_keys (h : Host) (w : World h) :
  hasOnlyKeys h Sample.ab (VArr 1 [VStr "a"; VStr "a"]) w
  = (Ok (VBool true), w)
  /\ In (VStr "b") (enumerableNames (ownOf Sample.ab))
  /\ ~ In (VStr "b") [VStr "a"; VStr "a"].
Proof.
  split; [reflexivity | ]. split; [cbn; tauto | ].
  cbn. intros [E | [E | []]]; discriminate E.
Qed.

(** ** The examples, run *)

(** The scan calls the predicates in list order; the truthy result [1] of
    the first does not select its arm. *)
Example scan_in_list_order :
  match_ Sample.host (num 3) Sample.positiveArgs []
  = (Ok (VStr "positive:3"),
     [Call 2 VUndefined [num 3]; Call 0 VUndefined [num 3];
      Call 1 VUndefined [num 3]]).
Proof. reflexivity. Qed.

(** Of two default arms the first is used. *)
Example first_default_arm :
  match_ Sample.host (num 0) Sample.twoDefaults [] = (Ok (VStr "a"), []).
Proof. reflexivity. Qed.

(** An entry with one item is kept; its evaluation is [undefined]. *)
Example short_entry_kept :
  match_ Sample.host (num 0) [VArr 1 [num 0]; VArr 2 [_def; VStr "d"]] []
  = (Ok VUndefined, []).
Proof. reflexivity. Qed.

(** [hasOnlyKeys({ a: 1, b: 2 }, ["a", "toString"])]: the inherited
    [toString] is counted as a key of the object. *)
Example inherited_key_counted :
  hasOnlyKeys Sample.host Sample.ab (VArr 1 [VStr "a"; VStr "toString"]) []
  = (Ok (VBool true), []).
Proof. reflexivity. Qed.

(** [isConstructable] runs the constructor. *)
Example construction_is_run :
  isConstructable Sample.host (VFun 5) []
  = (Ok (VBool true), [Construct 5 []]).
Proof. reflexivity. Qed.

(** A constructor that throws [null] makes [isConstructable] throw. *)
Example construction_throwing_null :
  isConstructable Sample.host (VFun 3) []
  = (Throw (JsError TypeError "Cannot read properties of undefined or null"),
     [Construct 3 []]).
Proof. reflexivity. Qed.

(** * Further properties of the code *)

Section Further_facts.

Variable h : Host.

(** Reading an own key of an object runs no caller code. *)
Lemma member_key_run (ref : nat) (own inherited : list (property value))
  (classes : list builtin) (k : propkey) (w : World h) :
  exists e,
    member h (VObj ref own inherited classes) (key_value k) w = (Ok e, w).
Proof.
  unfold member.
  rewrite (bind_run h _ _ w k w)
    by (unfold to_property_key; destruct k; reflexivity).
  unfold get.
  destruct (lookup k own); [eexists; reflexivity | ].
  destruct (lookup k inherited); eexists; reflexivity.
Qed.

Lemma map_member_total (ref : nat) (own inherited : list (property value))
  (classes : list builtin) (keys : list propkey) (w : World h) :
  exists arms,
    map_ h (fun key =>
              value_at_key <- member h (VObj ref own inherited classes) key ;;
              ret {| matchExpression := key; evaluation := value_at_key |})
         (map key_value keys) w
    = (Ok arms, w).
Proof.
  induction keys as [ | k rest [arms IH]]; [eexists; reflexivity | ].
  destruct (member_key_run ref own inherited classes k w) as [e E].
  cbn [map map_].
  rewrite (bind_run h _ _ w {| matchExpression := key_value k;
                               evaluation := e |} w)
    by (now rewrite (bind_run h _ _ w e w E)).
  rewrite (bind_run h _ _ w arms w IH). eexists; reflexivity.
Qed.

Lemma normalizeBasicMatcher_total (ref : nat)
  (own inherited : list (property value)) (classes : list builtin)
  (w : World h) :
  exists arms,
    normalizeBasicMatcher h (VObj ref own inherited classes) w = (Ok arms, w).
Proof.
  unfold normalizeBasicMatcher.
  rewrite (bind_run h _ _ w _ w) by reflexivity.
  rewrite (bind_run h _ _ w _ w) by reflexivity.
  rewrite <- map_app, <- map_map. apply map_member_total.
Qed.

(** The shape check and the normalisation run no caller code: they raise
    the invalid-shape error or yield the arms. *)
Lemma normalizedArms_cases (args : list value) (w : World h) :
  (isObjectValue (nth 0 args VUndefined) = false
   /\ Array_isArray (nth 0 args VUndefined) = false
   /\ normalizedArms h args w = (Throw invalidShapeError, w))
  \/ (exists arms, normalizedArms h args w = (Ok arms, w)).
Proof.
  unfold normalizedArms.
  destruct (nth 0 args VUndefined) as [ | | | | | | | ref items
                                      | ref own inherited classes] eqn:E;
    try (left; repeat split; reflexivity); right.
  - rewrite (bind_run h _ _ w (VBool true) w) by reflexivity.
    cbn [truthy negb].
    rewrite (bind_run h _ _ w (VBool false) w) by reflexivity.
    cbn [truthy]. eexists. apply normalizeAdvancedMatcher_run.
  - rewrite (bind_run h _ _ w (VBool true) w) by reflexivity.
    cbn [truthy negb].
    rewrite (bind_run h _ _ w (VBool true) w) by reflexivity.
    cbn [truthy]. apply normalizeBasicMatcher_total.
Qed.

(** The second [find] throws only what a match expression threw. *)
Lemma explicitMatch_throws (v : value) (arms : list MatchArm)
  (w w' : World h) (e : exn) :
  explicitMatch h v arms w = (Throw e, w') ->
  exists f w0 w0', perform h (Call f VUndefined [v]) w0 = (Throw e, w0').
Proof.
  unfold explicitMatch. revert w.
  induction arms as [ | arm rest IH]; intros w T; [discriminate T | ].
  cbn [find_] in T. unfold bind in T.
  destruct (isDefault arm) eqn:D.
  - rewrite (armMatches_default h v arm w D) in T. now apply (IH w).
  - rewrite (armMatches_run h v arm w D) in T.
    unfold armMatchesSpec, bind, ask in T.
    destruct (matchExpression arm) as [ | | | | | | f | | ];
      try (cbn in T;
           match type of T with
           | context [if ?b then _ else _] => destruct b
           end; [discriminate T | now apply (IH w)]).
    destruct (perform h (Call f VUndefined [v]) w) as [[r | e'] w1] eqn:P.
    + cbn in T. destruct (isTrueValue r);
        [discriminate T | now apply (IH w1)].
    + injection T as <- <-. now exists f, w, w1.
Qed.

(** Without a function among the match expressions, the second [find] is
    a plain search and runs no caller code. *)
Lemma explicitMatch_literal (v : value) (arms : list MatchArm)
  (w : World h) :
  forallb literalArm arms = true ->
  explicitMatch h v arms w = (Ok (find (explicitLiteral v) arms), w).
Proof.
  unfold explicitMatch.
  induction arms as [ | arm rest IH]; intros L; [reflexivity | ].
  cbn in L. apply andb_true_iff in L as [La Lr].
  cbn [find_ find]. unfold bind, explicitLiteral.
  destruct (isDefault arm) eqn:D.
  - rewrite (armMatches_default h v arm w D). cbn [truthy negb andb].
    now apply IH.
  - rewrite (armMatches_run h v arm w D).
    unfold armMatchesSpec, literalArm in *.
    destruct (matchExpression arm); try discriminate La;
      cbn; match goal with
           | |- context [if ?b then _ else _] => destruct b
           end; try reflexivity; now apply IH.
Qed.

(** Default arms are skipped by the second [find]. *)
Lemma explicitMatch_skips_defaults (v : value) (arms : list MatchArm)
  (w : World h) :
  explicitMatch h v arms w
  = explicitMatch h v (filter (fun arm => negb (isDefault arm)) arms) w.
Proof.
  unfold explicitMatch. revert w.
  induction arms as [ | arm rest IH]; intros w; [reflexivity | ].
  cbn [filter]. destruct (isDefault arm) eqn:D; cbn [negb].
  - cbn [find_]. unfold bind.
    rewrite (armMatches_default h v arm w D). cbn [truthy]. apply IH.
  - cbn [find_]. unfold bind.
    destruct (armMatches h v arm w) as [[hit | e] w1]; [ | reflexivity].
    destruct (truthy hit); [reflexivity | apply IH].
Qed.


Lemma result_evaluated (v evaluation : value) (w : World h) :
  result h v evaluation w = evaluated h v evaluation w.
Proof. rewrite result_run. now destruct evaluation. Qed.




End Further_facts.

(** ** Validation and errors of [match] *)

(** X1. A matcher that is neither an object nor an array, a missing
    matcher included, raises the invalid-shape [TypeError], whatever the
    other arguments are, and no caller code is run. *)
Theorem match_invalid_shape (h : Host) (v : value) (args : list value)
  (w : World h) :
  isObjectValue (nth 0 args VUndefined) = false ->
  Array_isArray (nth 0 args VUndefined) = false ->
  match_ h v args w = (Throw invalidShapeError, w).
Proof.
  intros O A.
  destruct (normalizedArms_cases h args w) as [(_ & _ & T) | [arms N]].
  - unfold match_. unfold bind at 1. now rewrite T.
  - exfalso. unfold normalizedArms in N.
    destruct (nth 0 args VUndefined); discriminate.
Qed.

Lemma match_invalid_shape_witness :
  isObjectValue (nth 0 [VFun 0; VArr 1 [_def; VStr "d"]] VUndefined) = false
  /\ Array_isArray (nth 0 [VFun 0; VArr 1 [_def; VStr "d"]] VUndefined)
     = false
  /\ match_ Sample.host (num 1) [VFun 0; VArr 1 [_def; VStr "d"]] []
     = (Throw invalidShapeError, []).
Proof.
  split; [reflexivity | ]. split; [reflexivity | ].
  apply (match_invalid_shape Sample.host); reflexivity.
Defined.





(** ** The basic form *)

Section Basic_form_facts.

Variable h : Host.

Lemma strict_eq_key_value (j k : propkey) :
  strict_eq (key_value j) (key_value k) = propkey_eqb j k.
Proof. destruct j, k; reflexivity. Qed.

Lemma keyOfValue_some (v : value) (k : propkey) :
  keyOfValue v = Some k -> v = key_value k.
Proof. destruct v; try discriminate; intros E; injection E as <-; reflexivity. Qed.

Lemma keyOfValue_none (v : value) (k : propkey) :
  keyOfValue v = None -> strict_eq (key_value k) v = false.
Proof. destruct v, k; try discriminate; reflexivity. Qed.

Lemma find_mapped {A B : Type} (f : B -> bool) (g : A -> B) (l : list A) :
  find f (map g l) = option_map g (find (fun x => f (g x)) l).
Proof.
  induction l as [ | x rest IH]; [reflexivity | ].
  cbn. destruct (f (g x)); [reflexivity | exact IH].
Qed.

Lemma find_agree {A : Type} (f g : A -> bool) (l : list A) :
  (forall x, In x l -> f x = g x) -> find f l = find g l.
Proof.
  induction l as [ | x rest IH]; intros E; [reflexivity | ].
  cbn. rewrite (E x) by now left.
  destruct (g x); [reflexivity | ]. apply IH. intros y I. apply E. now right.
Qed.

Lemma find_never {A : Type} (l : list A) : find (fun _ => false) l = None.
Proof. induction l; [reflexivity | assumption]. Qed.

Lemma symbolsThenNames_In (own : list (property value))
  (p : property value) :
  In p (symbolsThenNames own) <-> In p own.
Proof.
  unfold symbolsThenNames. rewrite in_app_iff, !filter_In.
  destruct (pkey p); cbn; intuition discriminate.
Qed.

(** With distinct own keys, the first property of a key in any listing of
    the own properties is the property of that key. *)
Lemma find_listing (own listing : list (property value)) (k : propkey) :
  NoDup (map pkey own) ->
  (forall p, In p listing <-> In p own) ->
  option_map pvalue (find (fun p => propkey_eqb (pkey p) k) listing)
  = lookup k own.
Proof.
  intros D L.
  destruct (find (fun p => propkey_eqb (pkey p) k) listing) as [p | ] eqn:F.
  - apply find_some in F as [I E]. apply propkey_eqb_eq in E. subst k.
    cbn. symmetry. apply lookup_own; [exact D | now apply L].
  - unfold lookup.
    destruct (find (fun p => propkey_eqb (pkey p) k) own) as [q | ] eqn:G;
      [ | reflexivity].
    apply find_some in G as [I E]. apply L in I.
    now rewrite (find_none _ _ F q I) in E.
Qed.

Lemma basicArms_literal (own : list (property value)) :
  forallb literalArm (basicArms own) = true.
Proof.
  apply forallb_forall. intros arm I. unfold basicArms in I.
  apply in_map_iff in I as (p & <- & _).
  unfold literalArm, propertyArm; cbn. now destruct (pkey p).
Qed.

Lemma basicArms_default (own : list (property value)) (default : value) :
  NoDup (map pkey own) ->
  lookup (PSym 0) own = Some default ->
  exists arm,
    find isDefault (basicArms own) = Some arm /\ evaluation arm = default.
Proof.
  intros D L. unfold basicArms. rewrite find_mapped.
  fold (symbolsThenNames own).
  pose proof (find_listing own (symbolsThenNames own) (PSym 0) D
                (symbolsThenNames_In own)) as F.
  rewrite L in F.
  rewrite (find_agree _ (fun p => propkey_eqb (pkey p) (PSym 0))).
  - destruct (find _ (symbolsThenNames own)) as [p | ]; [ | discriminate F].
    exists (propertyArm p). split; [reflexivity | ].
    cbn in F |- *. congruence.
  - intros p _. unfold isDefault, propertyArm, _def; cbn.
    apply (strict_eq_key_value (pkey p) (PSym 0)).
Qed.

Lemma basicArms_selection (own : list (property value)) (default v : value) :
  NoDup (map pkey own) ->
  match find (explicitLiteral v) (basicArms own) with
  | Some arm => evaluation arm
  | None => default
  end
  = recordValue own default v.
Proof.
  intros D. unfold basicArms. rewrite find_mapped.
  fold (symbolsThenNames own). unfold recordValue.
  destruct (keyOfValue v) as [k | ] eqn:K.
  - apply keyOfValue_some in K. subst v.
    destruct (propkey_eqb k (PSym 0)) eqn:Z.
    + apply propkey_eqb_eq in Z. subst k.
      rewrite (find_agree _ (fun _ => false)), find_never; [reflexivity | ].
      intros p _. unfold explicitLiteral, isDefault, propertyArm, _def; cbn.
      change (VSym 0) with (key_value (PSym 0)).
      rewrite strict_eq_key_value. now destruct (propkey_eqb _ _).
    + rewrite (find_agree _ (fun p => propkey_eqb (pkey p) k)).
      * rewrite <- (find_listing own (symbolsThenNames own) k D
                      (symbolsThenNames_In own)).
        now destruct (find _ (symbolsThenNames own)).
      * intros p _. unfold explicitLiteral, isDefault, propertyArm, _def; cbn.
        change (VSym 0) with (key_value (PSym 0)).
        rewrite !strict_eq_key_value.
        destruct (propkey_eqb (pkey p) k) eqn:E; [ | apply andb_false_r].
        apply propkey_eqb_eq in E. rewrite E, Z. reflexivity.
  - rewrite (find_agree _ (fun _ => false)), find_never; [reflexivity | ].
    intros p _. unfold explicitLiteral, propertyArm; cbn.
    rewrite (keyOfValue_none v (pkey p) K). apply andb_false_r.
Qed.

(** A matcher whose arms are all literal is searched without running
    caller code. *)
Lemma match_literal_run (v : value) (args : list value)
  (arms : list MatchArm) (default : MatchArm) (w : World h) :
  normalizedArms h args w = (Ok arms, w) ->
  find isDefault arms = Some default ->
  forallb literalArm arms = true ->
  match_ h v args w
  = result h v
      (evaluation match find (explicitLiteral v) arms with
                  | Some arm => arm
                  | None => default
                  end) w.
Proof.
  intros N F L.
  assert (D : defaultArm h arms w = (Ok (Some default), w)).
  { rewrite defaultArm_run. destruct arms; [discriminate F | now rewrite F]. }
  rewrite (match_run h v args arms (Some default) w w w N D).
  unfold bind at 1 2. rewrite (explicitMatch_literal h v arms w L).
  now destruct (find (explicitLiteral v) arms).
Qed.

End Basic_form_facts.

(** X4. The basic form is a lookup with a default.  When a record of data
    properties with distinct own keys, one of them [_def], has been
    normalised to its arms, [match(v)(record)] takes the value the record
    holds under the own key strictly equal to [v], and the value under
    [_def] when there is no such key, when [v] is not a string or a symbol,
    or when [v] is [_def] itself; that value is called with exactly [v]
    when it is a function and returned as it is otherwise, and nothing
    else is run. *)
Theorem basic_form_lookup (h : Host) (v : value) (args : list value)
  (own : list (property value)) (default : value) (w w1 : World h) :
  normalizedArms h args w = (Ok (basicArms own), w1) ->
  NoDup (map pkey own) ->
  lookup (PSym 0) own = Some default ->
  match_ h v args w = evaluated h v (recordValue own default v) w1.
Proof.
  intros N D L.
  destruct (basicArms_default own default D L) as (arm & F & E).
  assert (A : defaultArm h (basicArms own) w1 = (Ok (Some arm), w1)).
  { rewrite defaultArm_run.
    destruct (basicArms own); [discriminate F | now rewrite F]. }
  rewrite (match_run h v args (basicArms own) (Some arm) w w1 w1 N A).
  unfold bind at 1 2.
  rewrite (explicitMatch_literal h v (basicArms own) w1
             (basicArms_literal own)).
  assert (S : selectedEvaluation h (find (explicitLiteral v) (basicArms own))
                (Some arm) w1
              = (Ok (recordValue own default v), w1)).
  { rewrite <- (basicArms_selection own default v D), <- E.
    now destruct (find (explicitLiteral v) (basicArms own)). }
  rewrite S. apply result_evaluated.
Qed.

Lemma basic_form_lookup_witness :
  normalizedArms Sample.host [Sample.otherFive] []
  = (Ok (basicArms (ownOf Sample.otherFive)), [])
  /\ NoDup (map pkey (ownOf Sample.otherFive))
  /\ lookup (PSym 0) (ownOf Sample.otherFive) = Some (VStr "other")
  /\ recordValue (ownOf Sample.otherFive) (VStr "other") (VStr "5")
     = VStr "five"
  /\ match_ Sample.host (VStr "5") [Sample.otherFive] []
     = (Ok (VStr "five"), []).
Proof.
  assert (D : NoDup (map pkey (ownOf Sample.otherFive))).
  { cbn. repeat constructor; cbn; intuition discriminate. }
  split; [reflexivity | ]. split; [exact D | ].
  split; [reflexivity | ]. split; [reflexivity | ].
  apply (basic_form_lookup Sample.host (VStr "5") [Sample.otherFive]
           (ownOf Sample.otherFive) (VStr "other") [] [] eq_refl D eq_refl).
Defined.

(** X5. A matcher without functions is a table: when no match expression
    and no evaluation is a function, [match] returns, as it is, the
    evaluation of the first non-default arm strictly equal to the input,
    that of the default arm when there is none, and runs no caller code. *)
Theorem match_without_functions (h : Host) (v : value) (args : list value)
  (arms : list MatchArm) (default : MatchArm) (w : World h) :
  normalizedArms h args w = (Ok arms, w) ->
  find isDefault arms = Some default ->
  forallb literalArm arms = true ->
  forallb (fun arm => negb (callable (evaluation arm))) arms = true ->
  match_ h v args w
  = (Ok (evaluation match find (explicitLiteral v) arms with
                    | Some arm => arm
                    | None => default
                    end), w).
Proof.
  intros N F L E.
  rewrite (match_literal_run h v args arms default w N F L), result_run.
  rewrite forallb_forall in E.
  assert (I : In match find (explicitLiteral v) arms with
                 | Some arm => arm
                 | None => default
                 end arms).
  { destruct (find (explicitLiteral v) arms) as [arm | ] eqn:X.
    - now apply find_some in X.
    - now apply find_some in F. }
  specialize (E _ I). now destruct (evaluation _).
Qed.

Lemma match_without_functions_witness :
  normalizedArms Sample.host Sample.twoDefaults []
  = (Ok (map entryArm Sample.twoDefaults), [])
  /\ find isDefault (map entryArm Sample.twoDefaults)
     = Some (entryArm (VArr 1 [_def; VStr "a"]))
  /\ forallb literalArm (map entryArm Sample.twoDefaults) = true
  /\ forallb (fun arm => negb (callable (evaluation arm)))
             (map entryArm Sample.twoDefaults) = true
  /\ match_ Sample.host (num 0) Sample.twoDefaults [] = (Ok (VStr "a"), []).
Proof.
  split; [reflexivity | ]. split; [reflexivity | ].
  split; [reflexivity | ]. split; [reflexivity | ].
  apply (match_without_functions Sample.host (num 0) Sample.twoDefaults
           (map entryArm Sample.twoDefaults)
           (entryArm (VArr 1 [_def; VStr "a"])) []); reflexivity.
Defined.

(** ** The advanced form *)

Section Advanced_form_facts.

Variable h : Host.

Lemma match_same_arms (v : value) (args args' : list value) (w : World h) :
  normalizedArms h args w = normalizedArms h args' w ->
  match_ h v args w = match_ h v args' w.
Proof. intros E. unfold match_. unfold bind at 1 6. now rewrite E. Qed.

Lemma firstTwo_arms (entries : list value) :
  map entryArm (filter nonEmptyArray (map firstTwo entries))
  = map entryArm (filter nonEmptyArray entries).
Proof.
  induction entries as [ | entry rest IH]; [reflexivity | ].
  cbn [map filter].
  destruct entry as [ | | | | | | | ref [ | a [ | b more]] | ];
    cbn; now rewrite ?IH.
Qed.

(** Arguments that are all non-empty arrays become one arm each. *)
Lemma normalizedArms_entries (args : list value) (w : World h) :
  args <> [] ->
  forallb nonEmptyArray args = true ->
  normalizedArms h args w = (Ok (map entryArm args), w).
Proof.
  intros N A. destruct args as [ | first rest]; [contradiction | ].
  pose proof A as A'. cbn in A'. apply andb_true_iff in A' as [F _].
  destruct first; try discriminate F.
  rewrite normalizedArms_array. now rewrite (forallb_filter_id _ _ A).
Qed.

Lemma explicit_entries (entries : list value) :
  forallb explicitEntry entries = true ->
  forallb nonEmptyArray entries = true
  /\ find isDefault (map entryArm entries) = None
  /\ filter (fun arm => negb (isDefault arm)) (map entryArm entries)
     = map entryArm entries.
Proof.
  induction entries as [ | entry rest IH]; intros E; [now repeat split | ].
  cbn in E. apply andb_true_iff in E as [Ee Er].
  destruct (IH Er) as (A & F & K).
  unfold explicitEntry in Ee. apply andb_true_iff in Ee as [Ea Ed].
  cbn. rewrite Ea, A, Ed. apply negb_true_iff in Ed. rewrite Ed.
  now rewrite F, K.
Qed.

Lemma find_app_first {A : Type} (f : A -> bool) (l l' : list A) :
  find f l = None -> find f (l ++ l') = find f l'.
Proof.
  induction l as [ | x rest IH]; intros N; [reflexivity | ].
  cbn in N |- *. destruct (f x); [discriminate N | now apply IH].
Qed.

Lemma match_run_filtered (v : value) (args : list value)
  (arms : list MatchArm) (default : option MatchArm) (w w1 w2 : World h) :
  normalizedArms h args w = (Ok arms, w1) ->
  defaultArm h arms w1 = (Ok default, w2) ->
  match_ h v args w
  = bind (bind (explicitMatch h v
                  (filter (fun arm => negb (isDefault arm)) arms))
               (fun explicit => selectedEvaluation h explicit default))
         (result h v) w2.
Proof.
  intros N D. rewrite (match_run h v args arms default w w1 w2 N D).
  unfold bind. now rewrite explicitMatch_skips_defaults.
Qed.

End Advanced_form_facts.

(** X6. What [match] does not look at: in the advanced form, arguments
    after the first that are not non-empty arrays, and the items of an
    entry beyond its first two, change nothing; in the basic form, the
    arguments after the record change nothing. *)
Theorem match_ignores (h : Host) (v : value) (w : World h) :
  (forall ref items rest,
     match_ h v (VArr ref items :: rest) w
     = match_ h v (VArr ref items :: filter nonEmptyArray rest) w)
  /\ (forall ref items rest,
        match_ h v (VArr ref items :: rest) w
        = match_ h v (map firstTwo (VArr ref items :: rest)) w)
  /\ (forall ref own inherited classes rest,
        match_ h v (VObj ref own inherited classes :: rest) w
        = match_ h v [VObj ref own inherited classes] w).
Proof.
  split; [ | split].
  - intros. apply match_same_arms. rewrite !normalizedArms_array.
    cbn [filter]. destruct (nonEmptyArray (VArr ref items));
      now rewrite (forallb_filter_id _ _ (filter_forallb _ rest)).
  - intros. apply match_same_arms.
    assert (E : exists items',
               map firstTwo (VArr ref items :: rest)
               = VArr ref items' :: map firstTwo rest)
      by (destruct items as [ | a [ | b more]]; eexists; reflexivity).
    destruct E as [items' E].
    rewrite normalizedArms_array, E, normalizedArms_array, <- E.
    now rewrite firstTwo_arms.
  - intros. apply match_same_arms. reflexivity.
Qed.

(** X7. The default arm may stand anywhere: among entries that are
    non-empty arrays with another first item than [_def], moving the entry
    [[_def, d]] to the end does not change what [match] does. *)
Theorem default_arm_position (h : Host) (v d : value) (ref : nat)
  (before after : list value) (w : World h) :
  forallb explicitEntry (before ++ after) = true ->
  match_ h v (before ++ VArr ref [_def; d] :: after) w
  = match_ h v (before ++ after ++ [VArr ref [_def; d]]) w.
Proof.
  intros E.
  destruct (explicit_entries (before ++ after) E) as (A & F & K).
  rewrite forallb_app in A. apply andb_true_iff in A as [Ab Aa].
  rewrite map_app in F, K.
  assert (Fb : find isDefault (map entryArm before) = None).
  { destruct (find isDefault (map entryArm before)) eqn:X; [ | reflexivity].
    destruct (find_some _ _ X) as [I Dm].
    assert (N := find_none _ _ F m (in_or_app _ _ m (or_introl I))).
    congruence. }
  assert (Fa : find isDefault (map entryArm after) = None)
    by now rewrite (find_app_first _ _ _ Fb) in F.
  set (entry := VArr ref [_def; d]).
  assert (N1 : normalizedArms h (before ++ entry :: after) w
               = (Ok (map entryArm (before ++ entry :: after)), w)).
  { apply normalizedArms_entries; [now destruct before | ].
    rewrite forallb_app. cbn. now rewrite Ab, Aa. }
  assert (N2 : normalizedArms h (before ++ after ++ [entry]) w
               = (Ok (map entryArm (before ++ after ++ [entry])), w)).
  { apply normalizedArms_entries; [now destruct before, after | ].
    rewrite !forallb_app. cbn. now rewrite Ab, Aa. }
  assert (D1 : defaultArm h (map entryArm (before ++ entry :: after)) w
               = (Ok (Some (entryArm entry)), w)).
  { rewrite defaultArm_run, map_app.
    assert (X : find isDefault
                  (map entryArm before ++ map entryArm (entry :: after))
                = Some (entryArm entry))
      by now rewrite (find_app_first _ _ _ Fb).
    destruct (map entryArm before ++ map entryArm (entry :: after));
      [discriminate X | now rewrite X]. }
  assert (D2 : defaultArm h (map entryArm (before ++ after ++ [entry])) w
               = (Ok (Some (entryArm entry)), w)).
  { rewrite defaultArm_run, !map_app.
    assert (X : find isDefault
                  (map entryArm before
                   ++ map entryArm after ++ map entryArm [entry])
                = Some (entryArm entry))
      by now rewrite (find_app_first _ _ _ Fb), (find_app_first _ _ _ Fa).
    destruct (map entryArm before
              ++ map entryArm after ++ map entryArm [entry]);
      [discriminate X | now rewrite X]. }
  rewrite (match_run_filtered h v _ _ _ w w w N1 D1).
  rewrite (match_run_filtered h v _ _ _ w w w N2 D2).
  assert (S : filter (fun arm => negb (isDefault arm))
                (map entryArm (before ++ entry :: after))
              = filter (fun arm => negb (isDefault arm))
                  (map entryArm (before ++ after ++ [entry]))).
  { rewrite !map_app, !filter_app. cbn. now rewrite app_nil_r. }
  now rewrite S.
Qed.

Lemma default_arm_position_witness :
  forallb explicitEntry
    ([VArr 1 [VFun 2; VStr "one"]] ++ [VArr 2 [VFun 0; VFun 1]]) = true
  /\ match_ Sample.host (num 3)
       ([VArr 1 [VFun 2; VStr "one"]]
        ++ VArr 3 [_def; VStr "n/a"] :: [VArr 2 [VFun 0; VFun 1]]) []
     = match_ Sample.host (num 3)
         ([VArr 1 [VFun 2; VStr "one"]]
          ++ [VArr 2 [VFun 0; VFun 1]] ++ [VArr 3 [_def; VStr "n/a"]]) [].
Proof.
  split; [reflexivity | ].
  apply (default_arm_position Sample.host (num 3) (VStr "n/a") 3
           [VArr 1 [VFun 2; VStr "one"]] [VArr 2 [VFun 0; VFun 1]] []).
  reflexivity.
Defined.

(** X8. The two forms agree: for a record with distinct own keys, the
    basic form does what the advanced form does on the entries
    [[key, value]] of the record, its symbol keys first. *)
Theorem basic_form_as_advanced (h : Host) (v : value) (ref : nat)
  (own inherited : list (property value)) (classes : list builtin)
  (w : World h) :
  NoDup (map pkey own) ->
  own <> [] ->
  match_ h v [VObj ref own inherited classes] w
  = match_ h v (map propertyEntry (symbolsThenNames own)) w.
Proof.
  intros D N. apply match_same_arms.
  rewrite (normalizedArms_object h ref own inherited classes [] w D).
  rewrite normalizedArms_entries.
  - now rewrite map_map.
  - destruct own as [ | p rest]; [contradiction | ].
    assert (I : In p (symbolsThenNames (p :: rest)))
      by (apply symbolsThenNames_In; now left).
    destruct (symbolsThenNames (p :: rest)); [contradiction | discriminate].
  - apply forallb_forall. intros entry I.
    apply in_map_iff in I as (p & <- & _). reflexivity.
Qed.

Lemma basic_form_as_advanced_witness :
  NoDup (map pkey (ownOf Sample.aDef))
  /\ ownOf Sample.aDef <> []
  /\ match_ Sample.host (VStr "a") [Sample.aDef] []
     = match_ Sample.host (VStr "a")
         (map propertyEntry (symbolsThenNames (ownOf Sample.aDef))) [].
Proof.
  assert (D : NoDup (map pkey (ownOf Sample.aDef))).
  { cbn. repeat constructor; cbn; intuition discriminate. }
  split; [exact D | ]. split; [discriminate | ].
  apply (basic_form_as_advanced Sample.host (VStr "a") 3
           (ownOf Sample.aDef) Sample.objectPrototype [] [] D).
  discriminate.
Defined.

(** X9. In the basic form every own property of the record, enumerable
    or not, keyed by a string or by a symbol, becomes exactly one arm, and
    no inherited property does: the arms are the own properties up to
    their order. *)
Theorem basic_form_arms_cover (h : Host) (ref : nat)
  (own inherited : list (property value)) (classes : list builtin)
  (rest : list value) (w : World h) :
  NoDup (map pkey own) ->
  exists arms,
    normalizedArms h (VObj ref own inherited classes :: rest) w = (Ok arms, w)
    /\ Permutation arms (map propertyArm own).
Proof.
  intros D. exists (basicArms own).
  split; [now apply normalizedArms_object | ].
  unfold basicArms. apply Permutation_map.
  clear D. induction own as [ | p tail IH]; [constructor | ].
  cbn [filter]. destruct (pkey p); cbn.
  - apply Permutation_sym, Permutation_cons_app, Permutation_sym, IH.
  - now apply perm_skip.
Qed.

Lemma basic_form_arms_cover_witness :
  NoDup (map pkey (ownOf Sample.aDef))
  /\ exists arms,
       normalizedArms Sample.host [Sample.aDef] [] = (Ok arms, [])
       /\ Permutation arms (map propertyArm (ownOf Sample.aDef)).
Proof.
  assert (D : NoDup (map pkey (ownOf Sample.aDef))).
  { cbn. repeat constructor; cbn; intuition discriminate. }
  split; [exact D | ].
  apply (basic_form_arms_cover Sample.host 3 (ownOf Sample.aDef)
           Sample.objectPrototype [] [] [] D).
Defined.

(** ** The predicate layer, further *)

Section Predicate_relations.

Variable h : Host.

Lemma isNonNegativeInteger_run (v : value) (w : World h) :
  isNonNegativeInteger h v w
  = (Ok (VBool match v with
               | VNum n => is_integer n && num_leb (int 0) n
               | _ => false
               end), w).
Proof.
  destruct v as [ | | | [ | [] | q] | | | | | ]; try reflexivity.
  unfold isNonNegativeInteger, and_, bind; cbn.
  destruct (Qnum q mod Z.pos (Qden q) =? 0)%Z; reflexivity.
Qed.

Lemma isNumber_run (v : value) (w : World h) :
  isNumber h v w
  = (Ok (VBool match v with VNum n => negb (is_nan n) | _ => false end), w).
Proof. destruct v as [ | | | [ | | ] | | | | | ]; reflexivity. Qed.

Lemma num_ltb_length {A : Type} (n : nat) (l : list A) :
  num_ltb (int (Z.of_nat n)) (int (Z.of_nat (List.length l)))
  = Nat.ltb n (List.length l).
Proof.
  unfold num_ltb, int. rewrite Qle_bool_int.
  destruct (Nat.ltb_spec n (List.length l)) as [L | L].
  - apply negb_true_iff, Z.leb_gt. lia.
  - apply negb_false_iff, Z.leb_le. lia.
Qed.

Lemma hasOneItem_run (v : value) (w : World h) :
  hasOneItem h v w
  = (Ok (VBool (Array_isArray v && Nat.eqb (List.length (itemsOf v)) 1)), w).
Proof.
  destruct v as [ | | | | | | | ref items | ]; try reflexivity.
  unfold hasOneItem, and_, bind, seq_, ret; cbn -[strict_eq length_value].
  change (num 1) with (@length_value value [VUndefined]).
  now rewrite strict_eq_length.
Qed.

Lemma hasMultipleItems_run (v : value) (w : World h) :
  hasMultipleItems h v w
  = (Ok (VBool (Array_isArray v && Nat.ltb 1 (List.length (itemsOf v)))), w).
Proof.
  destruct v as [ | | | | | | | ref items | ]; try reflexivity.
  unfold hasMultipleItems, and_, bind, gt, ret;
    cbn -[num_ltb Z.of_nat Nat.ltb].
  change (int 1) with (int (Z.of_nat 1)).
  now rewrite (num_ltb_length 1 items).
Qed.

Lemma strict_eq_sym (a b : value) : strict_eq a b = strict_eq b a.
Proof.
  destruct a as [ | | x | [ | s | p] | x | x | x | x ? | x ? ? ?],
           b as [ | | y | [ | t | q] | y | y | y | y ? | y ? ? ?];
    cbn; try reflexivity;
    try apply Nat.eqb_sym; try apply String.eqb_sym.
  - now destruct x, y.
  - now destruct s, t.
  - unfold Qeq_bool. apply Z.eqb_sym.
Qed.

Lemma filter_permutation {A : Type} (f : A -> bool) (l l' : list A) :
  Permutation l l' -> Permutation (filter f l) (filter f l').
Proof.
  induction 1 as [ | x l l' P IH | x y l | l l' l'' P1 IH1 P2 IH2]; cbn.
  - constructor.
  - destruct (f x); [now apply perm_skip | exact IH].
  - destruct (f x), (f y); try reflexivity. apply perm_swap.
  - now transitivity (filter f l').
Qed.

End Predicate_relations.

(** X10. The kind predicates [isBoolean], [isArray], [isObject],
    [isString], [isNumber] and [isFunction] exclude one another: at most
    one of them answers [true] for a value, none does for [null] and
    [undefined], and a value of any kind is present. *)
Theorem kinds_exclusive (h : Host) (v : value) (w : World h) :
  List.length (filter (fun p => answers p v w) (kinds h)) <= 1
  /\ (missing v = true ->
      filter (fun p => answers p v w) (kinds h) = [])
  /\ (existsb (fun p => answers p v w) (kinds h) = true ->
      answers (isPresent h) v w = true).
Proof.
  destruct v as [ | | [] | [ | [] | q] | s | id | f | ref items
                | ref own inherited classes];
    cbn; repeat split; try lia; try reflexivity; try discriminate.
Qed.

Lemma kinds_exclusive_witness :
  missing VNull = true
  /\ filter (fun p => @answers Sample.host p VNull [])
            (kinds Sample.host) = []
  /\ existsb (fun p => @answers Sample.host p (VArr 1 []) [])
             (kinds Sample.host) = true
  /\ answers (isPresent Sample.host) (VArr 1 []) [] = true.
Proof.
  split; [reflexivity | ].
  split; [now apply (kinds_exclusive Sample.host VNull []) | ].
  split; [reflexivity | ].
  now apply (kinds_exclusive Sample.host (VArr 1 []) []).
Defined.

(** X11. [isPositiveInteger] implies [isNonNegativeInteger], which implies
    [isNumber]; the one number that is a non-negative integer without
    being a positive one is zero; [isNumber] holds of the numbers other
    than NaN, the infinities included, and neither integer predicate holds
    of an infinity. *)
Theorem integer_predicates (h : Host) (v : value) (w : World h) :
  (answers (isPositiveInteger h) v w = true ->
   answers (isNonNegativeInteger h) v w = true)
  /\ (answers (isNonNegativeInteger h) v w = true ->
      answers (isNumber h) v w = true)
  /\ (answers (isNonNegativeInteger h) v w = true
      /\ answers (isPositiveInteger h) v w = false
      <-> strict_eq v (num 0) = true)
  /\ (answers (isNumber h) v w = true
      <-> exists n, v = VNum n /\ n <> NaN)
  /\ (forall s, answers (isNonNegativeInteger h) (VNum (Infinity s)) w
                = false).
Proof.
  unfold answers.
  rewrite isPositiveInteger_run, isNonNegativeInteger_run, isNumber_run.
  assert (K : forall b : bool, (if b then true else false) = b)
    by (now intros []).
  rewrite !K. clear K.
  assert (Pos : forall q,
             Qle_bool q (inject_Z 0) = false ->
             Qle_bool (inject_Z 0) q = true).
  { intros q L. apply Qle_bool_iff, Qlt_le_weak, Qnot_le_lt.
    intros X. apply Qle_bool_iff in X. congruence. }
  split; [ | split; [ | split; [ | split]]].
  - destruct v as [ | | | [ | s | q] | | | | | ]; cbn;
      try (intros X; discriminate X).
    intros X. apply andb_true_iff in X as [I P]. rewrite I; cbn.
    apply Pos. now apply negb_true_iff.
  - destruct v as [ | | | [ | s | q] | | | | | ]; cbn;
      try (intros X; discriminate X). reflexivity.
  - destruct v as [ | | | [ | s | q] | | | | | ]; cbn;
      try (split; [intros [X _]; discriminate X | intros X; discriminate X]).
    split.
    + intros [N P]. apply andb_true_iff in N as [I G].
      rewrite I in P; cbn in P. apply negb_false_iff in P.
      apply Qeq_bool_iff, Qle_antisym; now apply Qle_bool_iff.
    + intros Z. apply Qeq_bool_iff in Z.
      assert (Zn : Qnum q = 0%Z) by (unfold Qeq in Z; cbn in Z; lia).
      assert (G : Qle_bool (inject_Z 0) q = true)
        by (apply Qle_bool_iff; rewrite Z; apply Qle_refl).
      assert (L : Qle_bool q (inject_Z 0) = true)
        by (apply Qle_bool_iff; rewrite Z; apply Qle_refl).
      rewrite Zn, G, L. split; reflexivity.
  - destruct v as [ | | | [ | s | q] | | | | | ]; cbn;
      try (split; [intros X; discriminate X
                  | intros [n [E _]]; discriminate E]).
    + split; [discriminate | ].
      intros [n [E N]]. injection E as <-. now contradiction N.
    + split; [ | reflexivity].
      intros _. eexists. split; [reflexivity | discriminate].
    + split; [ | reflexivity].
      intros _. eexists. split; [reflexivity | discriminate].
  - intros s. now rewrite isNonNegativeInteger_run.
Qed.

Lemma integer_predicates_witness :
  answers (isPositiveInteger Sample.host) (num 3) [] = true
  /\ answers (isNonNegativeInteger Sample.host) (num 3) [] = true
  /\ answers (isNumber Sample.host) (num 3) [] = true.
Proof.
  destruct (integer_predicates Sample.host (num 3) [])
    as (P & N & _).
  split; [reflexivity | ]. split; [now apply P | ].
  apply N. now apply P.
Defined.

(** X12. The size predicates split the arrays: an array is empty, has one
    item or has multiple items, and only one of the three; [isNonEmptyArray]
    holds exactly when [hasOneItem] or [hasMultipleItems] does, and none of
    them holds of a value that is not an array. *)
Theorem array_size_predicates (h : Host) (v : value) (w : World h) :
  answers (isNonEmptyArray h) v w
  = answers (hasOneItem h) v w || answers (hasMultipleItems h) v w
  /\ answers (hasOneItem h) v w && answers (hasMultipleItems h) v w = false
  /\ (answers (isArray h) v w = true ->
      answers (isNonEmptyArray h) v w = false ->
      exists ref, v = VArr ref [])
  /\ (answers (isArray h) v w = false ->
      answers (isNonEmptyArray h) v w = false).
Proof.
  unfold answers.
  rewrite isNonEmptyArray_run, hasOneItem_run, hasMultipleItems_run,
    isArray_run.
  destruct v as [ | | | | | | | ref [ | a [ | b more]] | ]; cbn;
    repeat split; try discriminate; try reflexivity.
  intros _ _. now exists ref.
Qed.

Lemma array_size_predicates_witness :
  answers (isArray Sample.host) (VArr 1 []) [] = true
  /\ answers (isNonEmptyArray Sample.host) (VArr 1 []) [] = false
  /\ exists ref, VArr 1 [] = VArr ref [].
Proof.
  split; [reflexivity | ]. split; [reflexivity | ].
  now apply (array_size_predicates Sample.host (VArr 1 []) []).
Defined.

(** X13. The guards of [special.ts] agree with the predicates of the same
    name of the predicate layer: [isNull], [isFunction], [isObject] and
    [isArray] give the same answer on every value. *)
Theorem guards_agree (h : Host) (v : value) (w : World h) :
  Special.isNull h v w = isNull h v w
  /\ Special.isFunction h v w = isFunction h v w
  /\ Special.isObject h v w = isObject h v w
  /\ Special.isArray h v w = isArray h v w.
Proof. by_cases v; repeat split; reflexivity. Qed.

(** X14. What [hasOnlyKeys] decides: for an object and an array of
    primitive keys it answers [true] exactly when every element of [keys]
    is a property of the object, own or inherited, and [keys] has as many
    elements as the object has own enumerable string keys. *)
Theorem hasOnlyKeys_counts (h : Host) (ref : nat)
  (own inherited : list (property value)) (classes : list builtin)
  (ref' : nat) (items : list value) (w : World h) :
  forallb primitive items = true ->
  hasOnlyKeys h (VObj ref own inherited classes) (VArr ref' items) w
  = (Ok (VBool true), w)
  <-> forallb (hasProperty h own inherited) items = true
      /\ List.length (enumerableNames own) = List.length items.
Proof.
  intros P. rewrite (hasOnlyKeys_run h ref own inherited classes ref' items w P).
  split.
  - intros E. injection E as E. apply andb_true_iff in E as [F L].
    apply Nat.eqb_eq in F, L. rewrite L in F.
    split; [now apply filter_length_forallb | exact L].
  - intros [F L]. rewrite (forallb_filter_id _ _ F), L, Nat.eqb_refl.
    reflexivity.
Qed.

Lemma hasOnlyKeys_counts_witness :
  forallb primitive [VStr "a"; VStr "toString"] = true
  /\ forallb (hasProperty Sample.host (ownOf Sample.ab)
                Sample.objectPrototype)
             [VStr "a"; VStr "toString"] = true
  /\ List.length (enumerableNames (ownOf Sample.ab))
     = List.length [VStr "a"; VStr "toString"]
  /\ hasOnlyKeys Sample.host Sample.ab (VArr 1 [VStr "a"; VStr "toString"]) []
     = (Ok (VBool true), []).
Proof.
  split; [reflexivity | ]. split; [reflexivity | ]. split; [reflexivity | ].
  apply (hasOnlyKeys_counts Sample.host 2 (ownOf Sample.ab)
           Sample.objectPrototype [] 1 [VStr "a"; VStr "toString"] []);
    [reflexivity | split; reflexivity].
Defined.

(** X15. Where [hasOnlyKeys] compares key sets: for a record without
    inherited properties whose own properties are all enumerable and keyed
    by distinct strings, and an array of distinct strings, it answers
    [true] exactly when the keys of the record are the elements of the
    array. *)
Theorem hasOnlyKeys_key_sets (h : Host) (ref : nat)
  (own : list (property value)) (classes : list builtin) (ref' : nat)
  (items : list value) (w : World h) :
  NoDup (map pkey own) -> plainRecord own = true ->
  NoDup items -> forallb isStringValue items = true ->
  hasOnlyKeys h (VObj ref own [] classes) (VArr ref' items) w
  = (Ok (VBool true), w)
  <-> (forall k, In k (enumerableNames own) <-> In k items).
Proof. apply hasOnlyKeys_plain_distinct. Qed.

Lemma hasOnlyKeys_key_sets_witness :
  NoDup (map pkey (ownOf Sample.ab))
  /\ plainRecord (ownOf Sample.ab) = true
  /\ NoDup [VStr "b"; VStr "a"]
  /\ forallb isStringValue [VStr "b"; VStr "a"] = true
  /\ (forall k, In k (enumerableNames (ownOf Sample.ab))
                <-> In k [VStr "b"; VStr "a"])
  /\ hasOnlyKeys Sample.host (VObj 2 (ownOf Sample.ab) [] [])
       (VArr 1 [VStr "b"; VStr "a"]) []
     = (Ok (VBool true), []).
Proof.
  assert (D : NoDup (map pkey (ownOf Sample.ab))).
  { cbn. repeat constructor; cbn; intuition discriminate. }
  assert (E : NoDup [VStr "b"; VStr "a"]).
  { repeat constructor; cbn; intuition discriminate. }
  assert (S : forall k, In k (enumerableNames (ownOf Sample.ab))
                        <-> In k [VStr "b"; VStr "a"])
    by (intros k; cbn; tauto).
  split; [exact D | ]. split; [reflexivity | ]. split; [exact E | ].
  split; [reflexivity | ]. split; [exact S | ].
  apply (hasOnlyKeys_key_sets Sample.host 2 (ownOf Sample.ab) [] 1
           [VStr "b"; VStr "a"] [] D eq_refl E eq_refl).
  exact S.
Defined.

(** X16. The order of [keys] does not matter to [hasOnlyKeys]: on primitive
    keys, a permutation of the array gives the same answer. *)
Theorem hasOnlyKeys_permutation (h : Host) (val : value) (ref ref' : nat)
  (items items' : list value) (w : World h) :
  forallb primitive items = true ->
  Permutation items items' ->
  hasOnlyKeys h val (VArr ref items) w = hasOnlyKeys h val (VArr ref' items') w.
Proof.
  intros P Q.
  assert (P' : forallb primitive items' = true).
  { apply forallb_forall. intros k I. rewrite forallb_forall in P.
    apply P. now apply (Permutation_in k (Permutation_sym Q)). }
  destruct val as [ | | | | | | | | r own inherited classes];
    try reflexivity.
  rewrite !hasOnlyKeys_run by assumption.
  rewrite (Permutation_length Q).
  now rewrite (Permutation_length
                 (filter_permutation (hasProperty h own inherited) _ _ Q)).
Qed.

Lemma hasOnlyKeys_permutation_witness :
  forallb primitive [VStr "a"; VStr "b"] = true
  /\ Permutation [VStr "a"; VStr "b"] [VStr "b"; VStr "a"]
  /\ hasOnlyKeys Sample.host Sample.ab (VArr 1 [VStr "a"; VStr "b"]) []
     = hasOnlyKeys Sample.host Sample.ab (VArr 2 [VStr "b"; VStr "a"]) [].
Proof.
  split; [reflexivity | ]. split; [apply perm_swap | ].
  apply (hasOnlyKeys_permutation Sample.host Sample.ab 1 2
           [VStr "a"; VStr "b"] [VStr "b"; VStr "a"] []);
    [reflexivity | apply perm_swap].
Defined.

(** X17. [hasOnlyKeys] answers [false] when [val] is not an object (an
    array, [null] and a function are none) or [keys] is not an array, and
    then looks at no key: no caller code is run. *)
Theorem hasOnlyKeys_guard (h : Host) (val keys : value) (w : World h) :
  isObjectValue val = false \/ Array_isArray keys = false ->
  hasOnlyKeys h val keys w = (Ok (VBool false), w).
Proof.
  intros [G | G].
  - destruct val; try discriminate G; reflexivity.
  - destruct val; try reflexivity.
    destruct keys; try discriminate G; reflexivity.
Qed.

Lemma hasOnlyKeys_guard_witness :
  (isObjectValue (VArr 1 []) = false \/ Array_isArray (VArr 2 []) = false)
  /\ hasOnlyKeys Sample.host (VArr 1 []) (VArr 2 []) []
     = (Ok (VBool false), []).
Proof.
  split; [now left | ].
  apply (hasOnlyKeys_guard Sample.host). now left.
Defined.

(** X18. [isConstructable] answers [true] only for a function.  When the
    construction throws [null] or [undefined], [isConstructable] throws a
    [TypeError] itself, reading [err.message]; when it throws an object
    whose own [message] is a string, the answer is whether that string
    does not contain "is not a constructor". *)
Theorem isConstructable_thrown (h : Host) (w : World h) :
  (forall val, answers (isConstructable h) val w = true ->
               callable val = true)
  /\ (forall f thrown w',
        perform h (Construct f []) w = (Throw (Thrown thrown), w') ->
        missing thrown = true ->
        isConstructable h (VFun f) w
        = (Throw (JsError TypeError
                    "Cannot read properties of undefined or null"), w'))
  /\ (forall f ref own inherited classes message w',
        perform h (Construct f []) w
        = (Throw (Thrown (VObj ref own inherited classes)), w') ->
        lookup (PStr "message") own = Some (VStr message) ->
        isConstructable h (VFun f) w
        = (Ok (VBool (negb (mentions message))), w')).
Proof.
  split; [ | split].
  - intros val A. unfold answers in A.
    destruct val; try reflexivity;
      now rewrite isConstructable_not_callable in A.
  - intros f thrown w' C N.
    unfold isConstructable, bind, try_catch; cbn. unfold ask. rewrite C.
    destruct thrown; try discriminate N; reflexivity.
  - intros f ref own inherited classes message w' C L.
    unfold isConstructable, bind, try_catch; cbn. unfold ask. rewrite C.
    cbn. rewrite L. cbn. unfold not_, bind.
    rewrite isNonNegativeInteger_index. unfold mentions.
    destruct (String.index 0 "is not a constructor" message); reflexivity.
Qed.

Lemma isConstructable_thrown_witness :
  perform Sample.host (Construct 3 []) []
  = (Throw (Thrown VNull), [Construct 3 []])
  /\ missing VNull = true
  /\ isConstructable Sample.host (VFun 3) []
     = (Throw (JsError TypeError
                 "Cannot read properties of undefined or null"),
        [Construct 3 []]).
Proof.
  split; [reflexivity | ]. split; [reflexivity | ].
  destruct (isConstructable_thrown Sample.host []) as (_ & N & _).
  apply (N 3 VNull); reflexivity.
Defined.

(** X19. [isEqual] is symmetric, and holds of a value and itself for every
    value but NaN. *)
Theorem isEqual_symmetric (h : Host) (a b : value) (w : World h) :
  isEqual h a b w = isEqual h b a w
  /\ (isEqual h a a w = (Ok (VBool true), w) <-> a <> VNum NaN).
Proof.
  rewrite !isEqual_run. split; [now rewrite strict_eq_sym | ].
  split.
  - intros E N. subst a. discriminate E.
  - intros N. do 3 f_equal.
    destruct a as [ | | [] | [ | [] | q] | s | id | f | ref items
                  | ref own inherited classes]; cbn;
      try reflexivity; try apply Nat.eqb_refl.
    + now contradiction N.
    + apply Qeq_bool_refl.
    + apply String.eqb_refl.
Qed.

Lemma isEqual_symmetric_witness :
  VNum (int 2) <> VNum NaN
  /\ isEqual Sample.host (num 2) (num 2) [] = (Ok (VBool true), []).
Proof.
  split; [discriminate | ].
  apply (isEqual_symmetric Sample.host (num 2) (num 2) []). discriminate.
Defined.

(** ** First match wins *)

Section Scan_facts.

Variable h : Host.

(** The scan of a list in two parts: the second part is scanned only when
    no arm of the first matched, from the world the first part left. *)
Lemma firstMatchSpec_app (v : value) (before after : list MatchArm)
  (w : World h) :
  firstMatchSpec h v (before ++ after) w
  = match firstMatchSpec h v before w with
    | (Ok None, w1) => firstMatchSpec h v after w1
    | stopped => stopped
    end.
Proof.
  revert w. induction before as [ | arm rest IH]; intros w; [reflexivity | ].
  cbn [app firstMatchSpec]. destruct (isDefault arm); [apply IH | ].
  unfold bind.
  destruct (armMatchesSpec h v arm w) as [[[ | ] | e] w1];
    [reflexivity | apply IH | reflexivity].
Qed.

End Scan_facts.

(** X20. First match wins.  When no arm before a non-default arm matched
    and that arm matches, [match] takes that arm's evaluation, calls it
    with exactly the input when it is a function and returns it as it is
    otherwise, and the arms after it are not tried; when that arm's
    predicate throws instead, [match] throws the same exception and runs
    nothing more; when it and the arms after it do not match, [match]
    takes the default arm's evaluation in the same way, from the world
    the scan left. *)
Theorem first_match_wins (h : Host) (v : value) (args : list value)
  (before after : list MatchArm) (arm default : MatchArm)
  (w w0 w1 w2 : World h) :
  normalizedArms h args w = (Ok (before ++ arm :: after), w0) ->
  defaultArm h (before ++ arm :: after) w0 = (Ok (Some default), w0) ->
  firstMatchSpec h v before w0 = (Ok None, w1) ->
  isDefault arm = false ->
  (armMatchesSpec h v arm w1 = (Ok true, w2) ->
   match_ h v args w = evaluated h v (evaluation arm) w2)
  /\ (forall e,
        armMatchesSpec h v arm w1 = (Throw e, w2) ->
        match_ h v args w = (Throw e, w2))
  /\ (forall w3,
        armMatchesSpec h v arm w1 = (Ok false, w2) ->
        firstMatchSpec h v after w2 = (Ok None, w3) ->
        match_ h v args w = evaluated h v (evaluation default) w3).
Proof.
  intros N D B A.
  rewrite (match_spec_run h v args _ default w w0 N D).
  unfold selectionSpec, bind.
  rewrite firstMatchSpec_app, B. cbn [firstMatchSpec]. rewrite A.
  unfold bind. split; [ | split].
  - intros E. rewrite E. apply result_evaluated.
  - intros e E. now rewrite E.
  - intros w3 E F. rewrite E, F. apply result_evaluated.
Qed.

Lemma first_match_wins_witness :
  normalizedArms Sample.host Sample.positiveArgs []
  = (Ok ([] ++ entryArm (VArr 1 [VFun 2; VStr "one"])
            :: [entryArm (VArr 2 [VFun 0; VFun 1]);
                entryArm (VArr 3 [_def; VStr "n/a"])]), [])
  /\ defaultArm Sample.host
       ([] ++ entryArm (VArr 1 [VFun 2; VStr "one"])
           :: [entryArm (VArr 2 [VFun 0; VFun 1]);
               entryArm (VArr 3 [_def; VStr "n/a"])]) []
     = (Ok (Some (entryArm (VArr 3 [_def; VStr "n/a"]))), [])
  /\ firstMatchSpec Sample.host (num (-3)) [] [] = (Ok None, [])
  /\ isDefault (entryArm (VArr 1 [VFun 2; VStr "one"])) = false
  /\ armMatchesSpec Sample.host (num (-3))
       (entryArm (VArr 1 [VFun 2; VStr "one"])) []
     = (Ok false, [Call 2 VUndefined [num (-3)]])
  /\ firstMatchSpec Sample.host (num (-3))
       [entryArm (VArr 2 [VFun 0; VFun 1]);
        entryArm (VArr 3 [_def; VStr "n/a"])]
       [Call 2 VUndefined [num (-3)]]
     = (Ok None,
        [Call 2 VUndefined [num (-3)]; Call 0 VUndefined [num (-3)]])
  /\ match_ Sample.host (num (-3)) Sample.positiveArgs []
     = (Ok (VStr "n/a"),
        [Call 2 VUndefined [num (-3)]; Call 0 VUndefined [num (-3)]]).
Proof.
  split; [reflexivity | ]. split; [reflexivity | ].
  split; [reflexivity | ]. split; [reflexivity | ].
  split; [reflexivity | ]. split; [reflexivity | ].
  destruct (first_match_wins Sample.host (num (-3)) Sample.positiveArgs
              [] [entryArm (VArr 2 [VFun 0; VFun 1]);
                  entryArm (VArr 3 [_def; VStr "n/a"])]
              (entryArm (VArr 1 [VFun 2; VStr "one"]))
              (entryArm (VArr 3 [_def; VStr "n/a"]))
              [] [] [] [Call 2 VUndefined [num (-3)]]
              eq_refl eq_refl eq_refl eq_refl) as (_ & _ & K).
  apply (K [Call 2 VUndefined [num (-3)]; Call 0 VUndefined [num (-3)]]);
    reflexivity.
Defined.

(** X21. The strict predicates: [isTrue] holds of the boolean [true] and
    of no other value, truthy or not; [isNonEmptyString] holds of the
    strings other than the empty one and of nothing else; a value is
    missing exactly when it is [null] or [undefined], and present exactly
    when it is not missing. *)
Theorem strict_predicates (h : Host) (v : value) (w : World h) :
  (answers (isTrue h) v w = true <-> v = VBool true)
  /\ (answers (isNonEmptyString h) v w = true
      <-> exists s, v = VStr s /\ s <> "")
  /\ (answers (isMissing h) v w = true <-> v = VNull \/ v = VUndefined)
  /\ answers (isPresent h) v w = negb (answers (isMissing h) v w)
  /\ answers (isMissing h) v w
     = answers (isNull h) v w || answers (isUndefined h) v w.
Proof.
  split; [ | split; [ | split; [ | split]]].
  - unfold answers. rewrite isTrue_run.
    destruct v as [ | | [] | | | | | | ]; cbn;
      split; try discriminate; reflexivity.
  - destruct v as [ | | | | [ | c s] | | | | ];
      try (split; [intros X; discriminate X
                  | intros [s [E _]]; discriminate E]).
    + split; [intros X; discriminate X | ].
      intros [s [E N]]. injection E as <-. now contradiction N.
    + split; [ | reflexivity].
      intros _. eexists. split; [reflexivity | discriminate].
  - destruct v; cbn; split; try discriminate; try tauto;
      intros [E | E]; discriminate E.
  - now destruct v.
  - now destruct v.
Qed.

Lemma strict_predicates_witness :
  num 1 <> VBool true
  /\ truthy (num 1) = true
  /\ answers (isTrue Sample.host) (num 1) [] = false.
Proof.
  split; [discriminate | ]. split; [reflexivity | ].
  destruct (strict_predicates Sample.host (num 1) []) as (T & _).
  destruct (answers (isTrue Sample.host) (num 1) []); [ | reflexivity].
  pose proof (proj1 T eq_refl) as X. discriminate X.
Defined.
